(** * The generate-quiz edge function: a shallow embedding and its properties

    The development follows [supabase/functions/generate-quiz/index.ts]:
    one request handler that validates a Wikipedia URL, fetches the page,
    extracts the article text, asks a completion service for a quiz and
    parses the answer.

    - [JS]      strings as sequences of UTF-16 code units, and the string
                builtins the handler calls ([trim], [endsWith], [slice],
                [join]);
    - [Json]    the values [JSON.parse] produces, [JSON.parse] itself, and
                the conversions and property accesses applied to them;
    - [RegExp]  the two fence patterns of the response parser;
    - [Dom]     the document tree and the three selectors used;
    - [Quiz]    the handler, in a small monad for early [return], [throw]
                and the trace of network calls;
    - [Generator] the form that calls the handler and stores its payload
                ([QuizGenerator]: the URL schema and [handleGenerate]);
    - [Display] the quiz-taking component ([QuizDisplay]: its state, its
                handlers and what the rendered page lets the user do).

    What the platform decides and the handler only calls (the URL parser,
    the HTML parser, number conversions, the wording of engine errors) is a
    field of [Platform]; what the outside world answers (the two HTTP
    calls, the environment variable) is a field of [World].  Console output
    is not modelled: it reaches neither the response nor the network. *)

From Stdlib Require Import NArith Ascii String List Lia.
From stdpp Require Import gmap strings list fin_maps pretty sorting.

Set Warnings "-register-all,-abstract-large-number".
Set Default Proof Using "Type".

(* ===================================================================== *)
(** ** JavaScript strings *)
(* ===================================================================== *)

Module JS.

(** A JavaScript string is a sequence of 16-bit code units; [length],
    [slice] and the regular expressions of the handler all count code
    units. *)
Abbreviation jsstring := (list N).

(** An ASCII literal as a JavaScript string. *)
Definition js (s : string) : jsstring :=
  (fun a => N_of_ascii a) <$> list_ascii_of_string s.
Arguments js s%_string.

(** The same with every apostrophe read as a double quote (code unit 34),
    to write JSON texts. *)
Definition jsq (s : string) : jsstring :=
  (fun c => if (c =? 39)%N then 34%N else c) <$> js s.
Arguments jsq s%_string.

(** [WhiteSpace] and [LineTerminator] of ECMAScript: what
    [String.prototype.trim] strips. *)
Definition is_js_space (c : N) : bool :=
  ((9 <=? c) && (c <=? 13) || (c =? 32) || (c =? 160) || (c =? 5760)
   || (8192 <=? c) && (c <=? 8202) || (c =? 8232) || (c =? 8233)
   || (c =? 8239) || (c =? 8287) || (c =? 12288) || (c =? 65279))%N.

Fixpoint trimStart (s : jsstring) : jsstring :=
  match s with
  | c :: s' => if is_js_space c then trimStart s' else s
  | [] => []
  end.

Definition trimEnd (s : jsstring) : jsstring :=
  reverse (trimStart (reverse s)).

(** [s.trim()] *)
Definition trim (s : jsstring) : jsstring := trimEnd (trimStart s).

(** [s.endsWith(suffix)] *)
Definition endsWith (s suffix : jsstring) : bool :=
  (length suffix <=? length s)%nat
  && bool_decide (drop (length s - length suffix) s = suffix).

(** [s.startsWith(p)], used by the pattern matcher. *)
Fixpoint startsWith (s p : jsstring) {struct p} : bool :=
  match p, s with
  | [], _ => true
  | a :: p', b :: s' => (a =? b)%N && startsWith s' p'
  | _ :: _, [] => false
  end.

(** [s.slice(0, n)] for a non-negative [n]. *)
Definition slice0 (n : nat) (s : jsstring) : jsstring := take n s.

(** [parts.join(sep)] on an array of strings. *)
Fixpoint join (sep : jsstring) (parts : list jsstring) : jsstring :=
  match parts with
  | [] => []
  | [p] => p
  | p :: rest => p ++ sep ++ join sep rest
  end.

End JS.
Export JS.

(* ===================================================================== *)
(** ** JSON values and [JSON.parse] *)
(* ===================================================================== *)

Module Json.

(** The values [JSON.parse] builds.  A number keeps its lexeme: its value
    as a double is the platform's business.  An object is a finite map
    from property names to values; a repeated name keeps the last value,
    as [JSON.parse] does. *)
Inductive json :=
| JNull
| JBool (b : bool)
| JNum (lexeme : jsstring)
| JStr (s : jsstring)
| JArr (elems : list json)
| JObj (props : gmap jsstring json).

(** A JavaScript value here is a JSON value or [undefined] ([None]). *)
Abbreviation jsval := (option json).

(** *** Lexer *)

Inductive token :=
| TLBrace | TRBrace | TLBracket | TRBracket | TColon | TComma
| TString (s : jsstring)
| TNumber (lexeme : jsstring)
| TTrue | TFalse | TNull.

(** JSON white space: tab, line feed, carriage return, space. *)
Definition is_json_ws (c : N) : bool :=
  ((c =? 9) || (c =? 10) || (c =? 13) || (c =? 32))%N.

Definition is_digit (c : N) : bool := ((48 <=? c) && (c <=? 57))%N.
Definition is_lower (c : N) : bool := ((97 <=? c) && (c <=? 122))%N.

(** The code units a number lexeme is made of: digits, [+ - . e E]. *)
Definition is_num_char (c : N) : bool :=
  (is_digit c || (c =? 43) || (c =? 45) || (c =? 46) || (c =? 101)
   || (c =? 69))%N.

Definition hex_value (c : N) : option N :=
  if is_digit c then Some (c - 48)%N
  else if ((97 <=? c) && (c <=? 102))%N then Some (c - 87)%N
  else if ((65 <=? c) && (c <=? 70))%N then Some (c - 55)%N
  else None.

(** The number grammar: an optional minus sign; then either a single 0 or
    a non-zero digit followed by any digits; then optionally a point and
    one or more digits; then optionally e or E, an optional sign and one or
    more digits. *)
Fixpoint skip_digits (s : jsstring) : jsstring :=
  match s with
  | c :: s' => if is_digit c then skip_digits s' else s
  | [] => []
  end.

Definition digits1 (s : jsstring) : option jsstring :=
  match s with
  | c :: s' => if is_digit c then Some (skip_digits s') else None
  | [] => None
  end.

Definition num_exp (s : jsstring) : bool :=
  match s with
  | [] => true
  | c :: s' =>
      if ((c =? 101) || (c =? 69))%N then
        let s'' := match s' with
                   | d :: r => if ((d =? 43) || (d =? 45))%N then r else s'
                   | [] => s'
                   end in
        bool_decide (digits1 s'' = Some [])
      else false
  end.

Definition num_frac (s : jsstring) : bool :=
  match s with
  | 46%N :: s' => match digits1 s' with Some r => num_exp r | None => false end
  | _ => num_exp s
  end.

Definition num_int (s : jsstring) : bool :=
  match s with
  | 48%N :: s' => num_frac s'
  | c :: s' => if is_digit c then num_frac (skip_digits s') else false
  | [] => false
  end.

Definition is_json_number (s : jsstring) : bool :=
  match s with
  | 45%N :: s' => num_int s'
  | _ => num_int s
  end.

(** The lexer reads one code unit at a time. *)
Inductive lstate :=
| LStart                                  (* between tokens *)
| LWord (acc : jsstring)                  (* inside true, false or null *)
| LNumber (acc : jsstring)                (* inside a number *)
| LString (acc : jsstring)                (* inside a string *)
| LEscape (acc : jsstring)                (* after a backslash *)
| LUnicode (acc : jsstring) (hex : list N). (* after backslash u *)

Definition word_token (w : jsstring) : option token :=
  if bool_decide (w = js "true") then Some TTrue
  else if bool_decide (w = js "false") then Some TFalse
  else if bool_decide (w = js "null") then Some TNull
  else None.

Definition number_token (w : jsstring) : option token :=
  if is_json_number w then Some (TNumber w) else None.

(** A code unit met between tokens. *)
Definition lex_start (c : N) : option (list token * lstate) :=
  if is_json_ws c then Some ([], LStart)
  else if (c =? 123)%N then Some ([TLBrace], LStart)
  else if (c =? 125)%N then Some ([TRBrace], LStart)
  else if (c =? 91)%N then Some ([TLBracket], LStart)
  else if (c =? 93)%N then Some ([TRBracket], LStart)
  else if (c =? 58)%N then Some ([TColon], LStart)
  else if (c =? 44)%N then Some ([TComma], LStart)
  else if (c =? 34)%N then Some ([], LString [])
  else if (is_digit c || (c =? 45))%N then Some ([], LNumber [c])
  else if is_lower c then Some ([], LWord [c])
  else None.

Definition escape_value (c : N) : option N :=
  if (c =? 34)%N then Some 34%N            (* quote *)
  else if (c =? 92)%N then Some 92%N       (* backslash *)
  else if (c =? 47)%N then Some 47%N       (* solidus *)
  else if (c =? 98)%N then Some 8%N        (* b *)
  else if (c =? 102)%N then Some 12%N      (* f *)
  else if (c =? 110)%N then Some 10%N      (* n *)
  else if (c =? 114)%N then Some 13%N      (* r *)
  else if (c =? 116)%N then Some 9%N       (* t *)
  else None.

Definition lex_step (st : lstate) (c : N) : option (list token * lstate) :=
  match st with
  | LStart => lex_start c
  | LWord acc =>
      if is_lower c then Some ([], LWord (acc ++ [c]))
      else
        t ← word_token acc;
        '(ts, st') ← lex_start c;
        Some (t :: ts, st')
  | LNumber acc =>
      if is_num_char c then Some ([], LNumber (acc ++ [c]))
      else
        t ← number_token acc;
        '(ts, st') ← lex_start c;
        Some (t :: ts, st')
  | LString acc =>
      if (c =? 34)%N then Some ([TString acc], LStart)
      else if (c =? 92)%N then Some ([], LEscape acc)
      else if (c <? 32)%N then None
      else Some ([], LString (acc ++ [c]))
  | LEscape acc =>
      if (c =? 117)%N then Some ([], LUnicode acc [])
      else
        x ← escape_value c;
        Some ([], LString (acc ++ [x]))
  | LUnicode acc hex =>
      d ← hex_value c;
      match hex with
      | [h1; h2; h3] =>
          Some ([], LString (acc ++ [((h1 * 16 + h2) * 16 + h3) * 16 + d])%N)
      | _ => Some ([], LUnicode acc (hex ++ [d]))
      end
  end.

Definition lex_end (st : lstate) : option (list token) :=
  match st with
  | LStart => Some []
  | LWord acc => t ← word_token acc; Some [t]
  | LNumber acc => t ← number_token acc; Some [t]
  | LString _ | LEscape _ | LUnicode _ _ => None
  end.

Fixpoint lex_go (st : lstate) (s : jsstring) : option (list token) :=
  match s with
  | [] => lex_end st
  | c :: s' =>
      '(ts, st') ← lex_step st c;
      rest ← lex_go st' s';
      Some (ts ++ rest)
  end.

Definition lex (s : jsstring) : option (list token) := lex_go LStart s.

(** *** Parser *)

(** Recursive descent over the tokens.  Every call consumes a token or
    hands over to a call that does, so the fuel given by [JSON_parse] is
    never what makes a text fail. *)
Fixpoint parse_value (fuel : nat) (ts : list token)
  : option (json * list token) :=
  match fuel with
  | O => None
  | S f =>
      match ts with
      | TNull :: r => Some (JNull, r)
      | TTrue :: r => Some (JBool true, r)
      | TFalse :: r => Some (JBool false, r)
      | TNumber n :: r => Some (JNum n, r)
      | TString s :: r => Some (JStr s, r)
      | TLBracket :: TRBracket :: r => Some (JArr [], r)
      | TLBracket :: r => parse_elements f r []
      | TLBrace :: TRBrace :: r => Some (JObj ∅, r)
      | TLBrace :: r => parse_members f r ∅
      | _ => None
      end
  end
with parse_elements (fuel : nat) (ts : list token) (acc : list json)
  : option (json * list token) :=
  match fuel with
  | O => None
  | S f =>
      match parse_value f ts with
      | Some (v, TComma :: r) => parse_elements f r (acc ++ [v])
      | Some (v, TRBracket :: r) => Some (JArr (acc ++ [v]), r)
      | _ => None
      end
  end
with parse_members (fuel : nat) (ts : list token) (m : gmap jsstring json)
  : option (json * list token) :=
  match fuel with
  | O => None
  | S f =>
      match ts with
      | TString k :: TColon :: r =>
          match parse_value f r with
          | Some (v, TComma :: r') => parse_members f r' (<[k := v]> m)
          | Some (v, TRBrace :: r') => Some (JObj (<[k := v]> m), r')
          | _ => None
          end
      | _ => None
      end
  end.

(** [JSON.parse(text)]: [None] stands for the [SyntaxError] it throws. *)
Definition JSON_parse (text : jsstring) : option json :=
  ts ← lex text;
  match parse_value (2 * length ts + 2) ts with
  | Some (v, []) => Some v
  | _ => None
  end.

End Json.
Export Json.

(* ===================================================================== *)
(** ** The fence patterns *)
(* ===================================================================== *)

Module RegExp.

(** Both patterns of the response parser have the shape
    [opening ([\s\S]*?) closing]: a literal, a lazy run of any code units
    (the capture group), a literal. *)
Record fence := { opening : jsstring; closing : jsstring }.

(** The lazy group at one position: it first tries to stop here, and takes
    one more code unit only when [closing] does not follow. *)
Fixpoint lazy_until (closing s : jsstring) : option jsstring :=
  if startsWith s closing then Some []
  else match s with
       | [] => None
       | c :: s' => cap ← lazy_until closing s'; Some (c :: cap)
       end.

(** One attempt, anchored at the start of [s]. *)
Definition match_here (re : fence) (s : jsstring) : option jsstring :=
  if startsWith s (opening re)
  then lazy_until (closing re) (drop (length (opening re)) s)
  else None.

(** [s.match(re)] without the [g] flag: the attempt is made at each
    position from the left, the first success wins.  The result is the
    capture group [m[1]]; [None] is the [null] of a failed match. *)
Fixpoint String_match (re : fence) (s : jsstring) : option jsstring :=
  match match_here re s with
  | Some cap => Some cap
  | None => match s with
            | [] => None
            | _ :: s' => String_match re s'
            end
  end.

(** The end of both patterns: a line feed and three backticks. *)
Definition fence_close : jsstring := 10%N :: js "```".

(** [/```json\n([\s\S]*?)\n```/] *)
Definition fence_json : fence :=
  {| opening := js "```json" ++ [10%N]; closing := fence_close |}.

(** [/```\n([\s\S]*?)\n```/] *)
Definition fence_plain : fence :=
  {| opening := js "```" ++ [10%N]; closing := fence_close |}.

(** The completion ["```json\n" + t + "\n```"]: the text [t] inside a json
    fence. *)
Definition fenced (t : jsstring) : jsstring :=
  js "```json" ++ [10%N] ++ t ++ [10%N] ++ js "```".

(** No line feed (10) is directly followed by a backtick (96). *)
Fixpoint nl_tick_free (s : jsstring) : Prop :=
  match s with
  | [] => True
  | c :: r => (c = 10%N -> head r <> Some 96%N) /\ nl_tick_free r
  end.

End RegExp.
Export RegExp.

(* ===================================================================== *)
(** ** The document tree *)
(* ===================================================================== *)

Module Dom.

(** What the HTML parser hands back: elements with their (lower-case)
    tag name, [id], class list and children; text and comment nodes. *)
Inductive node :=
| Element (tag : jsstring) (id : option jsstring) (classes : list jsstring)
          (children : list node)
| Text (data : jsstring)
| Comment (data : jsstring).

Record document := { doc_children : list node }.

(** A node together with its ancestors, nearest first. *)
Abbreviation located := (list node * node)%type.

(** A node and its descendants, in tree order. *)
Fixpoint subtree (anc : list node) (n : node) : list located :=
  (anc, n) ::
  match n with
  | Element _ _ _ ch => flat_map (subtree (n :: anc)) ch
  | _ => []
  end.

Definition descendants (e : located) : list located :=
  match snd e with
  | Element _ _ _ ch => flat_map (subtree (snd e :: fst e)) ch
  | _ => []
  end.

Definition doc_nodes (d : document) : list located :=
  flat_map (subtree []) (doc_children d).

(** [e.textContent] of an element: the data of its text descendants, in
    tree order. *)
Fixpoint textContent (n : node) : jsstring :=
  match n with
  | Element _ _ _ ch => flat_map textContent ch
  | Text d => d
  | Comment _ => []
  end.

(** The selectors the handler uses. *)
Inductive compound :=
| ById (i : jsstring)
| ByClass (c : jsstring)
| ByTag (t : jsstring).

Inductive selector :=
| Simple (c : compound)
| Descendant (a c : compound).       (* [a c]: c with an ancestor a *)

Definition matches_compound (c : compound) (n : node) : bool :=
  match n, c with
  | Element _ i _ _, ById x => bool_decide (i = Some x)
  | Element _ _ cls _, ByClass x => bool_decide (x ∈ cls)
  | Element t _ _ _, ByTag x => bool_decide (t = x)
  | _, _ => false
  end.

Definition matches (sel : selector) (e : located) : bool :=
  match sel with
  | Simple c => matches_compound c (snd e)
  | Descendant a c =>
      matches_compound c (snd e) && existsb (matches_compound a) (fst e)
  end.

(** [doc.querySelector(sel)] *)
Definition doc_querySelector (d : document) (sel : selector) : option located :=
  head (filter (fun e => matches sel e = true) (doc_nodes d)).

(** [e.querySelectorAll(sel)] *)
Definition querySelectorAll (e : located) (sel : selector) : list located :=
  filter (fun x => matches sel x = true) (descendants e).

End Dom.
Export Dom.

(* ===================================================================== *)
(** ** The handler *)
(* ===================================================================== *)

Module Quiz.

(** *** Platform and world *)

(** [new URL(s)]: the two fields the handler reads. *)
Record URL := { protocol : jsstring; hostname : jsstring }.

(** The errors the engine itself raises; their wording is the engine's. *)
Inductive fault :=
| BadJson (text : jsstring)                    (* SyntaxError of JSON.parse *)
| CannotRead (v : jsval) (prop : jsstring)     (* property of null/undefined *)
| CannotSet (v : json) (prop : jsstring)       (* assignment to a non-object *)
| NotAFunction (v : jsval) (prop : jsstring)   (* call of a missing method *)
| InvalidURL (s : jsstring).                  (* TypeError of new URL *)

Record Platform := {
  URL_parse : jsstring -> option URL;      (* [None]: the constructor throws *)
  DOM_parse : jsstring -> option document; (* [None]: parseFromString gives null *)
  Number_ToBoolean : jsstring -> bool;     (* of the number with this lexeme *)
  Number_ToString : jsstring -> jsstring;
  fault_message : fault -> jsstring
}.

(** What [catch (error)] may receive. *)
Inductive exn :=
| ErrorObj (message : jsstring)          (* [error instanceof Error] *)
| NonError.

Record fetch_request := {
  f_url : jsstring;
  f_method : jsstring;
  f_headers : list (jsstring * jsstring);
  f_body : option json                   (* the value given to JSON.stringify *)
}.

Record http_response := { r_status : N; r_text : jsstring }.

Inductive fetch_result :=
| Resolved (r : http_response)
| Rejected (e : exn).

Record World := {
  fetch_answer : fetch_request -> fetch_result;
  env_get : jsstring -> option jsstring          (* Deno.env.get *)
}.

Record Request := { method : jsstring; body : jsstring }.

Record Response := {
  status : N;
  headers : list (jsstring * jsstring);
  payload : option json                  (* the value given to JSON.stringify *)
}.

(** *** Control flow: return, throw, and the trace of network calls *)

Inductive outcome (A : Type) :=
| Normal (a : A)
| Returned (r : Response)        (* [return new Response(...)] *)
| Thrown (e : exn).
Arguments Normal {A} a.
Arguments Returned {A} r.
Arguments Thrown {A} e.

Definition M (A : Type) : Type := (outcome A * list fetch_request)%type.

Definition ret {A} (a : A) : M A := (Normal a, []).
Definition Return {A} (r : Response) : M A := (Returned r, []).
Definition throw {A} (e : exn) : M A := (Thrown e, []).

Definition bind {A B} (m : M A) (k : A -> M B) : M B :=
  match m with
  | (Normal a, t) => let '(o, t') := k a in (o, t ++ t')
  | (Returned r, t) => (Returned r, t)
  | (Thrown e, t) => (Thrown e, t)
  end.

(** [try { m } catch (e) { h e }]: a [return] inside [m] leaves the
    function, it is not caught. *)
Definition try_catch {A} (m : M A) (h : exn -> M A) : M A :=
  match m with
  | (Thrown e, t) => let '(o, t') := h e in (o, t ++ t')
  | other => other
  end.

Global Instance M_bind : MBind M := fun A B k m => bind m k.
Global Instance M_ret : MRet M := fun A a => ret a.

(** *** The constants of the source *)

Definition corsHeaders : list (jsstring * jsstring) :=
  [ (js "Access-Control-Allow-Origin", js "*");
    (js "Access-Control-Allow-Headers",
     js "authorization, x-client-info, apikey, content-type") ].

(** [{ ...corsHeaders, 'Content-Type': 'application/json' }] *)
Definition jsonHeaders : list (jsstring * jsstring) :=
  corsHeaders ++ [ (js "Content-Type", js "application/json") ].

(** [JSON.stringify({ error: msg })] with a status. *)
Definition error_response (st : N) (msg : jsstring) : Response :=
  {| status := st; headers := jsonHeaders;
     payload := Some (JObj {[ js "error" := JStr msg ]}) |}.

Definition systemPrompt : jsstring :=
  jsq "You are an AI model trained to convert Wikipedia article text into structured educational content.

Your task:
1. Summarize the article (80"
  ++ [8211%N] ++ jsq "120 words)
2. Identify key people, organizations, and locations mentioned
3. Detect major sections or thematic divisions
4. Generate 5"
  ++ [8211%N] ++ jsq "10 multiple-choice quiz questions with:
   - question
   - four answer options (A-D)
   - correct answer (must be one of: A, B, C, or D)
   - difficulty level: easy/medium/hard
   - explanation grounded strictly in the article
5. Suggest 3"
  ++ [8211%N] ++ jsq "8 related Wikipedia topics based on themes in the article

Constraints:
- Use ONLY the article text; do not assume external facts.
- Output MUST be valid JSON following this schema:

{
  'title': '',
  'summary': '',
  'key_entities': {
    'people': [],
    'organizations': [],
    'locations': []
  },
  'sections': [],
  'quiz': [
    {
      'question': '',
      'options': ['', '', '', ''],
      'answer': '',
      'difficulty': '',
      'explanation': ''
    }
  ],
  'related_topics': []
}

Respond with JSON only.".

(** *** The shape the payload is expected to have *)

(** The four option labels. *)
Definition option_labels : list jsstring := [js "A"; js "B"; js "C"; js "D"].

(** [question.answer] is one of the labels. *)
Definition answer_is_label (question : json) : Prop :=
  match question with
  | JObj m => exists a, m !! js "answer" = Some (JStr a) /\ a ∈ option_labels
  | _ => False
  end.

(** [data.quiz] *)
Definition quiz_field (data : json) : jsval :=
  match data with
  | JObj m => m !! js "quiz"
  | _ => None
  end.

(** Every element of the [quiz] array has a label for answer. *)
Definition answers_are_labels (data : json) : Prop :=
  forall questions question,
    quiz_field data = Some (JArr questions) ->
    question ∈ questions -> answer_is_label question.

Section Handler.

Context (P : Platform) (W : World).

(** An error raised by the engine. *)
Definition raise {A} (f : fault) : M A := throw (ErrorObj (fault_message P f)).

(** *** Conversions and property access *)

(** [ToBoolean]: what [!v], [a && b] and [a || b] test. *)
Definition ToBoolean (v : jsval) : bool :=
  match v with
  | None | Some JNull => false
  | Some (JBool b) => b
  | Some (JNum n) => Number_ToBoolean P n
  | Some (JStr s) => negb (bool_decide (s = []))
  | Some (JArr _) | Some (JObj _) => true
  end.

(** [ToString]: what [new URL(v)] and [fetch(v)] apply to their argument.
    An array is its elements joined by commas, [null] elements empty. *)
Fixpoint ToString (v : json) : jsstring :=
  match v with
  | JNull => js "null"
  | JBool true => js "true"
  | JBool false => js "false"
  | JNum n => Number_ToString P n
  | JStr s => s
  | JArr l =>
      join (js ",")
           (map (fun x => match x with JNull => [] | _ => ToString x end) l)
  | JObj _ => js "[object Object]"
  end.

(** [v.name], for the names the handler reads ([wikipediaUrl], [choices],
    [message], [content]): none is an array index or a built-in property,
    so only an object can have one. *)
Definition get_named (v : jsval) (name : jsstring) : M jsval :=
  match v with
  | None | Some JNull => raise (CannotRead v name)
  | Some (JObj m) => ret (m !! name)
  | Some _ => ret None
  end.

(** [v[i]] for a non-negative integer [i]. *)
Definition get_index (v : jsval) (i : nat) : M jsval :=
  match v with
  | None | Some JNull => raise (CannotRead v (js (pretty i)))
  | Some (JArr l) => ret (l !! i)
  | Some (JStr s) => ret ((fun c => JStr [c]) <$> s !! i)
  | Some (JObj m) => ret (m !! js (pretty i))
  | Some _ => ret None
  end.

(** [JSON.parse(text)], throwing. *)
Definition JSON_parse_M (text : jsstring) : M json :=
  match JSON_parse text with
  | Some v => ret v
  | None => raise (BadJson text)
  end.

(** [await fetch(...)]: the call is recorded, the world answers. *)
Definition fetch (r : fetch_request) : M http_response :=
  match fetch_answer W r with
  | Resolved resp => (Normal resp, [r])
  | Rejected e => (Thrown e, [r])
  end.

(** [response.ok] *)
Definition ok (r : http_response) : bool :=
  ((200 <=? r_status r) && (r_status r <=? 299))%N.

(** *** Extraction *)

(** [doc.querySelector('#firstHeading')?.textContent?.trim()
     || 'Unknown Article'] *)
Definition title (doc : document) : jsstring :=
  match doc_querySelector doc (Simple (ById (js "firstHeading"))) with
  | Some e =>
      let t := trim (textContent (snd e)) in
      if ToBoolean (Some (JStr t)) then t else js "Unknown Article"
  | None => js "Unknown Article"
  end.

(** [doc.querySelector('#mw-content-text .mw-parser-output')] *)
Definition contentDiv (doc : document) : option located :=
  doc_querySelector doc
    (Descendant (ById (js "mw-content-text")) (ByClass (js "mw-parser-output"))).

(** [.map(p => p.textContent?.trim())
     .filter(text => text && text.length > 50)] over the texts of the
    [p] elements. *)
Definition keep_paragraphs (texts : list jsstring) : list jsstring :=
  List.filter (fun text => ToBoolean (Some (JStr text)) && (50 <? length text)%nat)
              (map trim texts).

Definition paragraphs (div : located) : list jsstring :=
  keep_paragraphs
    (map (fun p => textContent (snd p))
         (querySelectorAll div (Simple (ByTag (js "p"))))).

(** [paragraphs.join('\n\n').slice(0, 15000)] *)
Definition limit_text (ps : list jsstring) : jsstring :=
  slice0 15000 (join [10; 10]%N ps).

Definition articleText (div : located) : jsstring := limit_text (paragraphs div).

(** *** The completion request *)

(** [`Article Title: ${title}\n\nArticle Content:\n${articleText}`] *)
Definition userMessage (title articleText : jsstring) : jsstring :=
  js "Article Title: " ++ title ++ [10; 10]%N ++ js "Article Content:"
  ++ [10%N] ++ articleText.

Definition message (role content : jsstring) : json :=
  JObj {[ js "role" := JStr role; js "content" := JStr content ]}.

Definition aiRequest (key title articleText : jsstring) : fetch_request :=
  {| f_url := js "https://ai.gateway.lovable.dev/v1/chat/completions";
     f_method := js "POST";
     f_headers := [ (js "Authorization", js "Bearer " ++ key);
                    (js "Content-Type", js "application/json") ];
     f_body := Some (JObj {[
       js "model" := JStr (js "google/gemini-2.5-flash");
       js "messages" := JArr [ message (js "system") systemPrompt;
                               message (js "user") (userMessage title articleText) ];
       js "temperature" := JNum (js "0.7") ]}) |}.

(** [fetch(wikipediaUrl)] *)
Definition wikiRequest (url : jsstring) : fetch_request :=
  {| f_url := url; f_method := js "GET"; f_headers := []; f_body := None |}.

(** *** The response parser *)

(** The inner [try] of the handler: look for a fence, parse what it holds
    or else the whole text; whatever is thrown inside becomes the error
    "Invalid JSON response from AI". *)
Definition jsonMatch (generatedContent : jsstring) : option jsstring :=
  match String_match fence_json generatedContent with
  | Some m => Some m
  | None => String_match fence_plain generatedContent
  end.

(** [jsonMatch ? jsonMatch[1] : generatedContent] *)
Definition jsonText (generatedContent : jsstring) : jsstring :=
  match jsonMatch generatedContent with
  | Some cap => cap
  | None => generatedContent
  end.

Definition quizData (generatedContent : jsval) : M json :=
  try_catch
    (text ← match generatedContent with
             | Some (JStr s) => ret s
             | None | Some JNull => raise (CannotRead generatedContent (js "match"))
             | Some _ => raise (NotAFunction generatedContent (js "match"))
             end;
     JSON_parse_M (jsonText text))
    (fun parseError => throw (ErrorObj (js "Invalid JSON response from AI"))).

(** [quizData.wikipedia_url = wikipediaUrl], as [JSON.stringify] will see
    it: an object gains or replaces the property; on an array the property
    is set but not serialised; on [null] or a primitive the assignment
    throws (module code is strict). *)
Definition set_wikipedia_url (data wikipediaUrl : json) : M json :=
  match data with
  | JObj m => ret (JObj (<[js "wikipedia_url" := wikipediaUrl]> m))
  | JArr l => ret (JArr l)
  | _ => raise (CannotSet data (js "wikipedia_url"))
  end.

(** *** The pipeline, stage by stage *)

(** Lines 15 to 39: read the body, require [wikipediaUrl], and pass it
    through the anti-SSRF gate (the inner [try] around [new URL]). *)
Definition request_url (req : Request) : M json :=
  data ← JSON_parse_M (body req);
  wikipediaUrl ← get_named (Some data) (js "wikipediaUrl");
  match wikipediaUrl with
  | Some url =>
      if negb (ToBoolean wikipediaUrl) then
        Return (error_response 400 (js "Wikipedia URL is required"))
      else
        try_catch
          (match URL_parse P (ToString url) with
           | None => raise (InvalidURL (ToString url))
           | Some parsed =>
               if negb (endsWith (hostname parsed) (js ".wikipedia.org"))
                  || (negb (bool_decide (protocol parsed = js "http:"))
                      && negb (bool_decide (protocol parsed = js "https:")))
               then Return (error_response 400
                      (js "Invalid Wikipedia URL. Must be from *.wikipedia.org"))
               else ret url
           end)
          (fun _ => Return (error_response 400 (js "Invalid URL format")))
  | None => Return (error_response 400 (js "Wikipedia URL is required"))
  end.

(** Lines 44 to 55: fetch the page and parse it. *)
Definition fetch_document (wikipediaUrl : json) : M document :=
  wikiResponse ← fetch (wikiRequest (ToString wikipediaUrl));
  if negb (ok wikiResponse) then
    throw (ErrorObj (js "Failed to fetch Wikipedia article"))
  else
    match DOM_parse P (r_text wikiResponse) with
    | None => throw (ErrorObj (js "Failed to parse Wikipedia HTML"))
    | Some doc => ret doc
    end.

(** Lines 58 to 75: title and article text. *)
Definition extract (doc : document) : M (jsstring * jsstring) :=
  let title := title doc in
  match contentDiv doc with
  | None => throw (ErrorObj (js "Could not find article content"))
  | Some div =>
      let articleText := articleText div in
      if (length articleText <? 500)%nat then
        throw (ErrorObj
          (js "Article content is too short to generate a meaningful quiz"))
      else ret (title, articleText)
  end.

(** Lines 144 to 169: what the completion service answered. *)
Definition read_completion (aiResponse : http_response) : M jsval :=
  if negb (ok aiResponse) then
    if (r_status aiResponse =? 429)%N then
      Return (error_response 429
                (js "Rate limit exceeded. Please try again later."))
    else if (r_status aiResponse =? 402)%N then
      Return (error_response 402
        (js "Payment required. Please add credits to your Lovable AI workspace."))
    else throw (ErrorObj (js "AI generation failed"))
  else
    aiData ← JSON_parse_M (r_text aiResponse);
    choices ← get_named (Some aiData) (js "choices");
    choice ← get_index choices 0;
    msg ← get_named choice (js "message");
    get_named msg (js "content").

(** Lines 80 to 169: the completion request and its answer. *)
Definition complete (title articleText : jsstring) : M jsval :=
  match env_get W (js "LOVABLE_API_KEY") with
  | None | Some [] => throw (ErrorObj (js "LOVABLE_API_KEY not configured"))
  | Some LOVABLE_API_KEY =>
      aiResponse ← fetch (aiRequest LOVABLE_API_KEY title articleText);
      read_completion aiResponse
  end.

(** Lines 172 to 193: parse the completion, attach the URL, answer 200. *)
Definition respond (wikipediaUrl : json) (generatedContent : jsval)
  : M Response :=
  data ← quizData generatedContent;
  data' ← set_wikipedia_url data wikipediaUrl;
  Return {| status := 200; headers := jsonHeaders; payload := Some data' |}.

(** The body of the outer [try]. *)
Definition pipeline (req : Request) : M Response :=
  wikipediaUrl ← request_url req;
  doc ← fetch_document wikipediaUrl;
  '(title, articleText) ← extract doc;
  generatedContent ← complete title articleText;
  respond wikipediaUrl generatedContent.

(** The function given to [serve]: the response, and the network calls
    made, in order.  The outer [catch] turns whatever was thrown into a
    500. *)
Definition handler (req : Request) : Response * list fetch_request :=
  if bool_decide (method req = js "OPTIONS") then
    ({| status := 200; headers := corsHeaders; payload := None |}, [])
  else
    match pipeline req with
    | (Normal r, t) | (Returned r, t) => (r, t)
    | (Thrown error, t) =>
        (error_response 500
           match error with
           | ErrorObj message => message
           | NonError => js "Failed to generate quiz"
           end, t)
    end.

End Handler.

End Quiz.
Export Quiz.

(* ===================================================================== *)
(** ** A sample platform and sample worlds *)
(* ===================================================================== *)

Module Sample.

(** A URL parser for URLs of the plain form [scheme://host/...] with a
    lower-case scheme and host and no port or credentials, where it agrees
    with the URL constructor. *)
Fixpoint split_scheme (acc s : jsstring) : option (jsstring * jsstring) :=
  match s with
  | 58%N :: 47%N :: 47%N :: rest => Some (acc, rest)
  | c :: s' => if is_lower c then split_scheme (acc ++ [c]) s' else None
  | [] => None
  end.

Fixpoint host_part (s : jsstring) : jsstring :=
  match s with
  | c :: s' =>
      if ((c =? 47) || (c =? 63) || (c =? 35))%N then [] else c :: host_part s'
  | [] => []
  end.

Definition URL_parse (s : jsstring) : option URL :=
  match split_scheme [] s with
  | Some (scheme, rest) =>
      match scheme, host_part rest with
      | _ :: _, (_ :: _) as host =>
          Some {| protocol := scheme ++ [58%N]; hostname := host |}
      | _, _ => None
      end
  | None => None
  end.

(** The digits of a number lexeme before its exponent. *)
Fixpoint mantissa (n : jsstring) : jsstring :=
  match n with
  | c :: n' => if ((c =? 101) || (c =? 69))%N then [] else c :: mantissa n'
  | [] => []
  end.

(** The platform: the HTML parser knows the pages it is given; a number
    converts to its own lexeme and is truthy when its mantissa has a
    non-zero digit (rounding to zero is not accounted for). *)
Definition platform (pages : list (jsstring * document)) : Platform :=
  {| Quiz.URL_parse := URL_parse;
     DOM_parse := fun html =>
       snd <$> head (List.filter (fun pg => bool_decide (fst pg = html)) pages);
     Number_ToBoolean := fun n =>
       existsb (fun c => (49 <=? c) && (c <=? 57))%N (mantissa n);
     Number_ToString := fun n => n;
     fault_message := fun f =>
       match f with
       | BadJson _ => js "Unexpected token in JSON"
       | CannotRead (Some _) _ => js "Cannot read properties of null"
       | CannotRead None _ => js "Cannot read properties of undefined"
       | CannotSet JNull _ => js "Cannot set properties of null"
       | CannotSet _ _ => js "Cannot create property"
       | NotAFunction _ _ => js "is not a function"
       | InvalidURL _ => js "Invalid URL"
       end |}.

(** A Wikipedia page: an optional [#firstHeading] and the paragraphs of
    [#mw-content-text .mw-parser-output]. *)
Definition page_html (heading : option jsstring) (ps : list jsstring) : jsstring :=
  js "<html><head></head><body>"
  ++ match heading with
     | Some h => js "<h1 id='firstHeading'>" ++ h ++ js "</h1>"
     | None => []
     end
  ++ js "<div id='mw-content-text'><div class='mw-parser-output'>"
  ++ flat_map (fun p => js "<p>" ++ p ++ js "</p>") ps
  ++ js "</div></div></body></html>".

Definition heading_nodes (heading : option jsstring) : list node :=
  match heading with
  | Some h => [ Element (js "h1") (Some (js "firstHeading")) [] [Text h] ]
  | None => []
  end.

Definition parser_output (ps : list jsstring) : node :=
  Element (js "div") None [js "mw-parser-output"]
    (map (fun p => Element (js "p") None [] [Text p]) ps).

Definition content_text (ps : list jsstring) : node :=
  Element (js "div") (Some (js "mw-content-text")) [] [parser_output ps].

Definition page_body (heading : option jsstring) (ps : list jsstring) : node :=
  Element (js "body") None [] (heading_nodes heading ++ [content_text ps]).

Definition page_root (heading : option jsstring) (ps : list jsstring) : node :=
  Element (js "html") None []
    [ Element (js "head") None [] []; page_body heading ps ].

Definition page_doc (heading : option jsstring) (ps : list jsstring) : document :=
  {| doc_children := [ page_root heading ps ] |}.

(** The content container of [page_doc], with its ancestors. *)
Definition page_div (heading : option jsstring) (ps : list jsstring) : located :=
  ([ content_text ps; page_body heading ps; page_root heading ps ],
   parser_output ps).

Definition page (heading : option jsstring) (ps : list jsstring)
  : jsstring * document :=
  (page_html heading ps, page_doc heading ps).

(** A paragraph of [n] letters. *)
Definition para (n : nat) : jsstring := replicate n 97%N.

(** The world: every GET answers 200 with [html]; every POST answers
    [ai_status] with [ai_text]; the API key is [key]. *)
Definition world (html : jsstring) (ai_status : N) (ai_text : jsstring)
    (key : option jsstring) : World :=
  {| fetch_answer := fun r =>
       if bool_decide (f_method r = js "GET")
       then Resolved {| r_status := 200; r_text := html |}
       else Resolved {| r_status := ai_status; r_text := ai_text |};
     env_get := fun name =>
       if bool_decide (name = js "LOVABLE_API_KEY") then key else None |}.

Definition post (text : jsstring) : Request :=
  {| method := js "POST"; body := text |}.

(** The request of the end-to-end scenario. *)
Definition test_request : Request :=
  post (jsq "{'wikipediaUrl': 'https://en.wikipedia.org/wiki/Test'}").

Definition test_url : jsstring := js "https://en.wikipedia.org/wiki/Test".

(** The page of the end-to-end scenario: title "Test", three paragraphs
    of 200 letters. *)
Definition test_page : jsstring * document :=
  page (Some (js "Test")) [para 200; para 200; para 200].

(** The article text of [test_page]. *)
Definition test_text : jsstring :=
  para 200 ++ [10; 10]%N ++ para 200 ++ [10; 10]%N ++ para 200.

(** A long page: two paragraphs of 8,000 letters. *)
Definition long_page : jsstring * document :=
  page (Some (js "Test")) [para 8000; para 8000].

(** A stub: one paragraph of 100 letters. *)
Definition stub_page : jsstring * document :=
  page (Some (js "Test")) [para 100].

(** The test page without its heading. *)
Definition untitled_page : jsstring * document :=
  page None [para 200; para 200; para 200].

(** A chat completion whose message content is [content], given as the
    inside of a JSON string literal. *)
Definition completion (content : jsstring) : jsstring :=
  jsq "{'choices':[{'message':{'role':'assistant','content':'" ++ content
  ++ jsq "'}}]}".

End Sample.

(* ===================================================================== *)
(** ** The ways out of the handler *)
(* ===================================================================== *)

Module Exits.

(** What the gate has established of a URL it let through. *)
Definition validated (P : Platform) (url : json) : Prop :=
  exists parsed,
    URL_parse P (ToString P url) = Some parsed
    /\ endsWith (hostname parsed) (js ".wikipedia.org") = true
    /\ (protocol parsed = js "http:" \/ protocol parsed = js "https:").

(** What the stages after the completion request can end in. *)
Definition after_completion (o : outcome Response) : Prop :=
  (exists p, o = Returned {| status := 200; headers := jsonHeaders;
                             payload := Some p |})
  \/ (exists st msg, o = Returned (error_response st msg)
                     /\ (st = 429 \/ st = 402)%N)
  \/ (exists e, o = Thrown e).

(** The four ways out of [pipeline], with the network calls made on each. *)
Inductive exit (P : Platform) (W : World)
  : outcome Response -> list fetch_request -> Prop :=
| exit_gate msg :
    exit P W (Returned (error_response 400 msg)) []
| exit_body e :
    exit P W (Thrown e) []
| exit_page url e :
    validated P url ->
    exit P W (Thrown e) [wikiRequest (ToString P url)]
| exit_completion url ttl txt key o :
    validated P url ->
    env_get W (js "LOVABLE_API_KEY") = Some key -> key <> [] ->
    ttl <> [] -> 500 <= length txt <= 15000 ->
    after_completion o ->
    exit P W o [wikiRequest (ToString P url); aiRequest key ttl txt].

End Exits.
Export Exits.

(* ===================================================================== *)
(** ** The quiz generator form *)
(* ===================================================================== *)

Module Generator.

(** What the page calls: the URL check of the schema library, the edge
    function, and the two inserts.  An answer is an error or the data. *)
Record Backend := {
  zod_url : jsstring -> bool;                   (* [z.string().url()] *)
  invoke : jsstring -> json -> exn + json;      (* [supabase.functions.invoke] *)
  insert_quiz : list (jsstring * jsval) -> exn + json;
  insert_questions : list (list (jsstring * jsval) * nat) -> option exn
}.

(** The predicate given to [refine]. *)
Definition is_wikipedia_url (P : Platform) (url : jsstring) : bool :=
  match URL_parse P url with
  | Some parsed =>
      endsWith (hostname parsed) (js ".wikipedia.org")
      && (bool_decide (protocol parsed = js "http:")
          || bool_decide (protocol parsed = js "https:"))
  | None => false
  end.

(** [wikiUrlSchema.safeParse(url)]: [None] for success, else the message
    of the first issue. *)
Definition wikiUrlSchema (P : Platform) (B : Backend) (url : jsstring)
  : option jsstring :=
  if negb (zod_url B url) then Some (js "Please enter a valid URL")
  else if negb (is_wikipedia_url P url) then
    Some (js "Must be a valid Wikipedia URL (e.g., https://en.wikipedia.org/wiki/...)")
  else None.

(** A row to insert: the properties of the object literal, in order.  The
    rows of [quiz_questions] carry their [question_order] apart. *)
Abbreviation row := (list (jsstring * jsval)).
Abbreviation question_row := (row * nat)%type.

Inductive effect :=
| SetIsGenerating (b : bool)
| SetUrl (url : jsstring)
| ToastError (message : jsstring)
| ToastSuccess (message : jsstring)
| Invoke (name : jsstring) (body : json)
| InsertQuiz (r : row)
| InsertQuestions (rows : list question_row)
| OnQuizGenerated (id : jsval).

(** A computation that may throw, with the effects it had. *)
Definition G (A : Type) : Type := ((exn + A) * list effect)%type.

Definition Gret {A} (a : A) : G A := (inr a, []).
Definition Gthrow {A} (e : exn) : G A := (inl e, []).
Definition Gbind {A B} (m : G A) (k : A -> G B) : G B :=
  match m with
  | (inr a, t) => let '(o, t') := k a in (o, t ++ t')
  | (inl e, t) => (inl e, t)
  end.
Definition emit (e : effect) : G unit := (inr tt, [e]).

Global Instance G_bind : MBind G := fun A B k m => Gbind m k.
Global Instance G_ret : MRet G := fun A a => Gret a.

Section Form.

Context (P : Platform) (B : Backend).

(** [v.name] for a name that no prototype defines. *)
Definition read (v : jsval) (name : jsstring) : G jsval :=
  match v with
  | None | Some JNull => Gthrow (ErrorObj (fault_message P (CannotRead v name)))
  | Some (JObj m) => Gret (m !! name)
  | Some _ => Gret None
  end.

(** The callback of [quizData.quiz.map((q, index) => ...)]. *)
Definition question_row_of (quiz : json) (q : json) (index : nat)
  : G question_row :=
  quiz_id ← read (Some quiz) (js "id");
  question ← read (Some q) (js "question");
  options ← read (Some q) (js "options");
  correct_answer ← read (Some q) (js "answer");
  difficulty ← read (Some q) (js "difficulty");
  explanation ← read (Some q) (js "explanation");
  Gret ([ (js "quiz_id", quiz_id); (js "question", question);
          (js "options", options); (js "correct_answer", correct_answer);
          (js "difficulty", difficulty); (js "explanation", explanation) ],
        index).

Fixpoint question_rows_from (quiz : json) (index : nat) (qs : list json)
  : G (list question_row) :=
  match qs with
  | [] => Gret []
  | q :: qs' =>
      r ← question_row_of quiz q index;
      rs ← question_rows_from quiz (S index) qs';
      Gret (r :: rs)
  end.

(** [quizData.quiz.map(...)]: only an array has [map]. *)
Definition question_rows (quiz : json) (quizData : json)
  : G (list question_row) :=
  qs ← read (Some quizData) (js "quiz");
  match qs with
  | Some (JArr l) => question_rows_from quiz 0 l
  | None | Some JNull =>
      Gthrow (ErrorObj (fault_message P (CannotRead qs (js "map"))))
  | Some _ => Gthrow (ErrorObj (fault_message P (NotAFunction qs (js "map"))))
  end.

(** The body of the [try] of [handleGenerate]. *)
Definition generate (url : jsstring) : G unit :=
  let body := JObj {[ js "wikipediaUrl" := JStr url ]} in
  emit (Invoke (js "generate-quiz") body);;
  match invoke B (js "generate-quiz") body with
  | inl functionError => Gthrow functionError
  | inr quizData =>
      title ← read (Some quizData) (js "title");
      summary ← read (Some quizData) (js "summary");
      wikipedia_url ← read (Some quizData) (js "wikipedia_url");
      key_entities ← read (Some quizData) (js "key_entities");
      sections ← read (Some quizData) (js "sections");
      related_topics ← read (Some quizData) (js "related_topics");
      let r := [ (js "title", title); (js "summary", summary);
                 (js "wikipedia_url", wikipedia_url);
                 (js "key_entities", key_entities); (js "sections", sections);
                 (js "related_topics", related_topics) ] in
      emit (InsertQuiz r);;
      match insert_quiz B r with
      | inl quizError => Gthrow quizError
      | inr quiz =>
          questions ← question_rows quiz quizData;
          emit (InsertQuestions questions);;
          match insert_questions B questions with
          | Some questionsError => Gthrow questionsError
          | None =>
              emit (ToastSuccess (js "Quiz generated successfully!"));;
              id ← read (Some quiz) (js "id");
              emit (OnQuizGenerated id);;
              emit (SetUrl [])
          end
      end
  end.

(** [error.message || "Failed to generate quiz. Please try again."] *)
Definition error_text (error : exn) : jsstring :=
  match error with
  | ErrorObj ((_ :: _) as message) => message
  | _ => js "Failed to generate quiz. Please try again."
  end.

(** [handleGenerate], on the URL typed in the form. *)
Definition handleGenerate (url : jsstring) : list effect :=
  if bool_decide (trim url = []) then
    [ToastError (js "Please enter a Wikipedia URL")]
  else
    match wikiUrlSchema P B url with
    | Some message => [ToastError message]
    | None =>
        [SetIsGenerating true]
        ++ match generate url with
           | (inr _, effects) => effects
           | (inl error, effects) => effects ++ [ToastError (error_text error)]
           end
        ++ [SetIsGenerating false]
    end.

End Form.

(** The state of the form, and what the setters do to it. *)
Record state := { url : jsstring; isGenerating : bool }.

Definition apply_effect (s : state) (e : effect) : state :=
  match e with
  | SetIsGenerating b => {| url := url s; isGenerating := b |}
  | SetUrl u => {| url := u; isGenerating := isGenerating s |}
  | _ => s
  end.

Definition after (s : state) (effects : list effect) : state :=
  fold_left apply_effect effects s.

(** The edge function is called. *)
Definition is_invoke (e : effect) : bool :=
  match e with Invoke _ _ => true | _ => false end.

(** The page is told of a new quiz. *)
Definition is_generated (e : effect) : bool :=
  match e with OnQuizGenerated _ => true | _ => false end.

End Generator.

(* ===================================================================== *)
(** ** The quiz display *)
(* ===================================================================== *)

Module Display.

(** A row of [quiz_questions] as the component uses it. *)
Record Question := {
  options : list jsstring;
  correct_answer : jsstring
}.

(** The state of the component.  [selectedAnswer] is [null] ([None]) or
    the label clicked, itself [undefined] ([Some None]) beyond the fourth
    option. *)
Record state := {
  questions : list Question;
  currentQuestionIndex : nat;
  selectedAnswer : option (option jsstring);
  isAnswered : bool;
  score : nat;
  isComplete : bool
}.

Inductive effect :=
| InsertAttempt (score total_questions : nat)
| ToastSuccess (message : jsstring).

(** The state once [loadQuiz] has set the questions. *)
Definition loaded (qs : list Question) : state :=
  {| questions := qs; currentQuestionIndex := 0; selectedAnswer := None;
     isAnswered := false; score := 0; isComplete := false |}.

(** [['A', 'B', 'C', 'D'][index]] *)
Definition getOptionLabel (index : nat) : option jsstring :=
  [js "A"; js "B"; js "C"; js "D"] !! index.

(** The result of a handler: the state its setters leave, and whether it
    threw after them. *)
Inductive handled :=
| Done (s : state)
| Threw (s : state).

(** [handleAnswerSelect(answer)]: [currentQuestion.correct_answer] throws
    when there is no current question. *)
Definition handleAnswerSelect (s : state) (answer : option jsstring) : handled :=
  if isAnswered s then Done s
  else
    let s' := {| questions := questions s;
                 currentQuestionIndex := currentQuestionIndex s;
                 selectedAnswer := Some answer;
                 isAnswered := true;
                 score := score s;
                 isComplete := isComplete s |} in
    match questions s !! currentQuestionIndex s with
    | None => Threw s'
    | Some currentQuestion =>
        if bool_decide (answer = Some (correct_answer currentQuestion)) then
          Done {| questions := questions s;
                  currentQuestionIndex := currentQuestionIndex s;
                  selectedAnswer := Some answer;
                  isAnswered := true;
                  score := score s + 1;
                  isComplete := isComplete s |}
        else Done s'
    end.

(** [completeQuiz]: the attempt is recorded with the score as it is. *)
Definition completeQuiz (s : state) : state * list effect :=
  ({| questions := questions s;
      currentQuestionIndex := currentQuestionIndex s;
      selectedAnswer := selectedAnswer s;
      isAnswered := isAnswered s;
      score := score s;
      isComplete := true |},
   [ InsertAttempt (score s) (length (questions s));
     ToastSuccess (js "Quiz completed! Score: " ++ js (pretty (score s))
                   ++ js "/" ++ js (pretty (length (questions s)))) ]).

(** [handleNext]: [currentQuestionIndex < questions.length - 1], over the
    integers. *)
Definition handleNext (s : state) : state * list effect :=
  if (Z.of_nat (currentQuestionIndex s) <? Z.of_nat (length (questions s)) - 1)%Z
  then ({| questions := questions s;
           currentQuestionIndex := currentQuestionIndex s + 1;
           selectedAnswer := None;
           isAnswered := false;
           score := score s;
           isComplete := isComplete s |}, [])
  else completeQuiz s.

(** What the rendered page lets the user do.  While there is no question
    it shows "Loading quiz..."; once complete it shows the result; else it
    shows a button per option, disabled once answered, and the Next button
    once answered. *)
Inductive event :=
| Select (index : nat)
| Next.

Definition enabled (s : state) (e : event) : Prop :=
  questions s <> [] /\ isComplete s = false /\
  match e with
  | Select index =>
      isAnswered s = false /\
      exists q, questions s !! currentQuestionIndex s = Some q
                /\ index < length (options q)
  | Next => isAnswered s = true
  end.

(** One event: the state after it and the effects it had; [None] when its
    handler threw. *)
Definition step (s : state) (e : event) : option (state * list effect) :=
  match e with
  | Select index =>
      match handleAnswerSelect s (getOptionLabel index) with
      | Done s' => Some (s', [])
      | Threw _ => None
      end
  | Next => Some (handleNext s)
  end.

(** The states the user can reach from the loaded questions, with the
    effects so far. *)
Inductive reachable (qs : list Question) : state -> list effect -> Prop :=
| reach_loaded : reachable qs (loaded qs) []
| reach_step s effects e s' effects' :
    reachable qs s effects -> enabled s e ->
    step s e = Some (s', effects') ->
    reachable qs s' (effects ++ effects')
| reach_throw s effects index s' :
    reachable qs s effects -> enabled s (Select index) ->
    handleAnswerSelect s (getOptionLabel index) = Threw s' ->
    reachable qs s' effects.

(** Answering question after question: click the option [index], then
    Next. *)
Fixpoint play (s : state) (clicks : list nat) : state * list effect :=
  match clicks with
  | [] => (s, [])
  | index :: rest =>
      match handleAnswerSelect s (getOptionLabel index) with
      | Done s1 =>
          let '(s2, effects) := handleNext s1 in
          let '(s3, effects') := play s2 rest in
          (s3, effects ++ effects')
      | Threw s1 => (s1, [])
      end
  end.

(** The number of clicks that hit the stored answer. *)
Fixpoint hits (qs : list Question) (clicks : list nat) : nat :=
  match qs, clicks with
  | q :: qs', index :: rest =>
      (if bool_decide (getOptionLabel index = Some (correct_answer q))
       then 1 else 0) + hits qs' rest
  | _, _ => 0
  end.

End Display.

(* ===================================================================== *)
(** ** More sample pages and worlds *)
(* ===================================================================== *)

Module Cases.

(** A page without the content container. *)
Definition bare_html : jsstring :=
  js "<html><head></head><body><h1 id='firstHeading'>Test</h1></body></html>".

Definition bare_doc : document :=
  {| doc_children :=
       [ Element (js "html") None []
           [ Element (js "head") None [] [];
             Element (js "body") None []
               [ Element (js "h1") (Some (js "firstHeading")) []
                   [Text (js "Test")] ] ] ] |}.

Definition bare_page : jsstring * document := (bare_html, bare_doc).

(** A world whose every call is answered by [answer]. *)
Definition world_answering (answer : fetch_result) : World :=
  {| fetch_answer := fun _ => answer;
     env_get := fun _ => Some (js "secret") |}.

(** A backend that accepts what it is given: the edge function answers
    [quizData], the inserted quiz comes back as [quiz], and the questions
    are refused with [questionsError] if there is one. *)
Definition backend (quizData quiz : json) (questionsError : option exn)
  : Generator.Backend :=
  {| Generator.zod_url := fun url =>
       match Sample.URL_parse url with Some _ => true | None => false end;
     Generator.invoke := fun _ _ => inr quizData;
     Generator.insert_quiz := fun _ => inr quiz;
     Generator.insert_questions := fun _ => questionsError |}.

(** A payload with two questions, and the row the insert returns. *)
Definition quiz_payload : json :=
  JObj {[ js "title" := JStr (js "Test");
          js "quiz" := JArr
            [ JObj {[ js "question" := JStr (js "Q1"); js "answer" := JStr (js "B") ]};
              JObj {[ js "question" := JStr (js "Q2"); js "answer" := JStr (js "D") ]} ] ]}.

Definition quiz_record : json := JObj {[ js "id" := JStr (js "q-1") ]}.

(** The rows the generator builds from [quiz_payload]. *)
Definition question_row (q a : jsstring) (k : nat) : Generator.question_row :=
  ([ (js "quiz_id", Some (JStr (js "q-1"))); (js "question", Some (JStr q));
     (js "options", None); (js "correct_answer", Some (JStr a));
     (js "difficulty", None); (js "explanation", None) ], k).

Definition quiz_rows : list Generator.question_row :=
  [ question_row (js "Q1") (js "B") 0; question_row (js "Q2") (js "D") 1 ].

(** Two questions for the display. *)
Definition two_questions : list Display.Question :=
  [ {| Display.options := [js "w"; js "x"; js "y"; js "z"];
       Display.correct_answer := js "B" |};
    {| Display.options := [js "w"; js "x"; js "y"; js "z"];
       Display.correct_answer := js "D" |} ].

End Cases.

(** Literals and requests stay folded under [simpl]. *)
Arguments js : simpl never.
Arguments jsq : simpl never.
Arguments error_response : simpl never.
Arguments aiRequest : simpl never.
Arguments wikiRequest : simpl never.
Arguments systemPrompt : simpl never.

(** Unfolding the monad. *)
Ltac run_M := unfold mbind, M_bind, bind, try_catch, raise, throw, ret, Return.

(* ===================================================================== *)
(** ** Examples *)
(* ===================================================================== *)

Example JSON_parse_ex1 :
  JSON_parse (jsq " {'a': [1, -2.5e+3, true, null], 'b': 'x\nA'} ")
  = Some (JObj (<[js "a" := JArr [JNum (js "1"); JNum (js "-2.5e+3"); JBool true; JNull]]>
               (<[js "b" := JStr [120; 10; 65]%N]> ∅))).
Proof. vm_compute. reflexivity. Qed.

Example JSON_parse_ex2 :
  JSON_parse (jsq "[1 2]") = None /\ JSON_parse (jsq "{'a':1,}") = None
  /\ JSON_parse (jsq "01") = None /\ JSON_parse (jsq "[[[]],{}]") = Some (JArr [JArr [JArr []]; JObj ∅])
  /\ JSON_parse (jsq "'a`b'") = Some (JStr (js "a`b"))
  /\ JSON_parse (jsq "tru") = None /\ JSON_parse [] = None
  /\ JSON_parse (jsq "{'a':1,'a':2}") = Some (JObj {[ js "a" := JNum (js "2") ]}).
Proof. vm_compute. repeat split; reflexivity. Qed.


Example trim_ex : trim (js "  ab c" ++ [10; 160; 8232]%N) = js "ab c".
Proof. vm_compute. reflexivity. Qed.

Example endsWith_ex :
  endsWith (js "en.wikipedia.org") (js ".wikipedia.org") = true
  /\ endsWith (js "wikipedia.org") (js ".wikipedia.org") = false
  /\ endsWith (js "evilwikipedia.org") (js ".wikipedia.org") = false.
Proof. vm_compute. repeat split; reflexivity. Qed.

Example URL_parse_ex :
  Sample.URL_parse Sample.test_url
  = Some {| protocol := js "https:"; hostname := js "en.wikipedia.org" |}.
Proof. vm_compute. reflexivity. Qed.

Example String_match_ex :
  String_match fence_json (js "Here: ```json" ++ [10%N] ++ js "{}" ++ [10%N] ++ js "``` bye")
  = Some (js "{}")
  /\ String_match fence_plain (js "```json" ++ [10%N] ++ js "{}" ++ [10%N] ++ js "```") = None
  /\ String_match fence_json (js "{}") = None.
Proof. vm_compute. repeat split; reflexivity. Qed.

(** The end-to-end scenario of the specification. *)
Example end_to_end :
  let P := Sample.platform [Sample.test_page] in
  let W := Sample.world (fst Sample.test_page) 200
             (Sample.completion (jsq "```json\n{\'title\':\'Test\',\'quiz\':[]}\n```"))
             (Some (js "secret")) in
  handler P W Sample.test_request
  = ({| status := 200; headers := jsonHeaders;
        payload := Some (JObj {[ js "title" := JStr (js "Test");
                                 js "quiz" := JArr [];
                                 js "wikipedia_url" := JStr Sample.test_url ]}) |},
     [ wikiRequest Sample.test_url;
       aiRequest (js "secret") (js "Test") Sample.test_text ]).
Proof. vm_compute. reflexivity. Qed.

(* ===================================================================== *)
(** ** Facts about the string builtins *)
(* ===================================================================== *)

Section Strings.

Lemma startsWith_app (p s : jsstring) : startsWith (p ++ s) p = true.
Proof.
  induction p as [|a p IH]; simpl; [reflexivity|].
  rewrite N.eqb_refl. exact IH.
Qed.

Lemma startsWith_cons_inv (a : N) (p s : jsstring) :
  startsWith s (a :: p) = true -> exists s', s = a :: s' /\ startsWith s' p = true.
Proof.
  destruct s as [|b s]; simpl; [discriminate|].
  intros H. apply andb_true_iff in H as [Hab Hp].
  apply N.eqb_eq in Hab. subst b. eauto.
Qed.

Lemma take_length_gt (n : nat) (s : jsstring) :
  n < length s -> length (slice0 n s) = n.
Proof. intros H. unfold slice0. rewrite length_take. lia. Qed.

Lemma take_length_le (n : nat) (s : jsstring) :
  length s <= n -> slice0 n s = s.
Proof. intros H. unfold slice0. apply take_ge. lia. Qed.

End Strings.

(* ===================================================================== *)
(** ** A text that [JSON.parse] accepts holds no fence *)
(* ===================================================================== *)

Section Lexer.

(** A line feed never leaves the lexer inside a string: inside one it is
    refused, outside it is white space. *)
Lemma lex_step_line_feed st ts st' :
  lex_step st 10 = Some (ts, st') -> forall acc, st' <> LString acc.
Proof.
  destruct st as [|w|w|acc0|acc0|acc0 hex]; simpl.
  - intros [= <- <-] acc; discriminate.
  - destruct (word_token w); simpl; [|discriminate].
    intros [= <- <-] acc; discriminate.
  - destruct (number_token w); simpl; [|discriminate].
    intros [= <- <-] acc; discriminate.
  - discriminate.
  - discriminate.
  - discriminate.
Qed.

(** A backtick is accepted only inside a string. *)
Lemma lex_step_backtick st ts st' :
  lex_step st 96 = Some (ts, st') -> exists acc, st = LString acc.
Proof.
  destruct st as [|w|w|acc0|acc0|acc0 hex]; simpl.
  - discriminate.
  - destruct (word_token w); simpl; discriminate.
  - destruct (number_token w); simpl; discriminate.
  - eauto.
  - discriminate.
  - discriminate.
Qed.

Lemma lex_go_nl_tick_free s : forall st ts,
  lex_go st s = Some ts ->
  nl_tick_free s /\ (head s = Some 96%N -> exists acc, st = LString acc).
Proof.
  induction s as [|c s IH]; intros st ts H.
  - split; [exact I | discriminate].
  - simpl in H.
    destruct (lex_step st c) as [[ts1 st']|] eqn:Hstep; simpl in H; [|discriminate].
    destruct (lex_go st' s) as [rest|] eqn:Hgo; simpl in H; [|discriminate].
    destruct (IH _ _ Hgo) as [Hfree Hhead].
    split; [split; [|exact Hfree] |].
    + intros -> Htick. destruct (Hhead Htick) as [acc ->].
      exact (lex_step_line_feed _ _ _ Hstep acc eq_refl).
    + intros [= ->]. exact (lex_step_backtick _ _ _ Hstep).
Qed.

Lemma JSON_parse_nl_tick_free t v : JSON_parse t = Some v -> nl_tick_free t.
Proof.
  unfold JSON_parse, lex. intros H.
  destruct (lex_go LStart t) as [ts|] eqn:Hlex; simpl in H; [|discriminate].
  exact (proj1 (lex_go_nl_tick_free _ _ _ Hlex)).
Qed.

End Lexer.

Section Fences.

Lemma nl_tick_free_tail c s : nl_tick_free (c :: s) -> nl_tick_free s.
Proof. intros [_ H]; exact H. Qed.

Lemma nl_tick_free_drop n s : nl_tick_free s -> nl_tick_free (drop n s).
Proof.
  revert s; induction n as [|n IH]; intros [|c s] H; simpl; auto.
  apply IH. exact (nl_tick_free_tail _ _ H).
Qed.

Lemma startsWith_close_inv s :
  startsWith s fence_close = true -> exists s', s = 10%N :: 96%N :: s'.
Proof.
  change fence_close with [10; 96; 96; 96]%N. intros H.
  apply startsWith_cons_inv in H as (s1 & -> & H).
  apply startsWith_cons_inv in H as (s2 & -> & H). eauto.
Qed.

Lemma nl_tick_free_no_close s :
  nl_tick_free s -> startsWith s fence_close = false.
Proof.
  intros H. destruct (startsWith s fence_close) eqn:E; [|reflexivity].
  apply startsWith_close_inv in E as (s' & ->).
  destruct H as [H _]. exfalso. apply H; reflexivity.
Qed.

Lemma lazy_until_free s : nl_tick_free s -> lazy_until fence_close s = None.
Proof.
  induction s as [|c s IH]; intros H.
  - reflexivity.
  - cbn [lazy_until]. rewrite (nl_tick_free_no_close _ H).
    rewrite (IH (nl_tick_free_tail _ _ H)). reflexivity.
Qed.

Lemma String_match_free (re : fence) s :
  closing re = fence_close -> nl_tick_free s -> String_match re s = None.
Proof.
  intros Hre. induction s as [|c s IH]; intros H.
  - cbn. unfold match_here. rewrite Hre.
    destruct (startsWith [] (opening re)); [|reflexivity].
    rewrite drop_nil. reflexivity.
  - cbn [String_match].
    assert (match_here re (c :: s) = None) as ->.
    { unfold match_here. destruct (startsWith (c :: s) (opening re)); [|reflexivity].
      rewrite Hre. apply lazy_until_free, nl_tick_free_drop, H. }
    apply IH. exact (nl_tick_free_tail _ _ H).
Qed.

(** The lazy group stops at the closing fence that follows the text. *)
Lemma lazy_until_closing t :
  nl_tick_free t -> lazy_until fence_close (t ++ fence_close) = Some t.
Proof.
  induction t as [|c t IH]; intros H.
  - reflexivity.
  - assert (startsWith ((c :: t) ++ fence_close) fence_close = false) as Hno.
    { destruct (startsWith ((c :: t) ++ fence_close) fence_close) eqn:E; [|reflexivity].
      apply startsWith_close_inv in E as (s' & E). exfalso.
      destruct H as [H _]. injection E as -> E.
      destruct t as [|d t]; [discriminate|].
      injection E as -> _. apply H; reflexivity. }
    change (lazy_until fence_close ((c :: t) ++ fence_close))
      with (if startsWith ((c :: t) ++ fence_close) fence_close then Some []
            else cap ← lazy_until fence_close (t ++ fence_close); Some (c :: cap)).
    rewrite Hno, (IH (nl_tick_free_tail _ _ H)). reflexivity.
Qed.

Lemma String_match_fenced (re : fence) t :
  closing re = fence_close -> nl_tick_free t ->
  String_match re (opening re ++ t ++ fence_close) = Some t.
Proof.
  intros Hre H.
  assert (match_here re (opening re ++ t ++ fence_close) = Some t) as Hm.
  { unfold match_here. rewrite startsWith_app, drop_app_length, Hre.
    apply lazy_until_closing, H. }
  destruct (opening re ++ t ++ fence_close); cbn [String_match]; rewrite Hm; reflexivity.
Qed.

End Fences.

(* ===================================================================== *)
(** ** Facts about the stages *)
(* ===================================================================== *)

Section Stages.

Context (P : Platform) (W : World).

Lemma status_error_response st msg : status (error_response st msg) = st.
Proof. reflexivity. Qed.

Lemma payload_error_response st msg :
  payload (error_response st msg) = Some (JObj {[ js "error" := JStr msg ]}).
Proof. reflexivity. Qed.

Lemma bind_Normal {A B} (m : M A) (k : A -> M B) a t :
  m = (Normal a, t) -> (m ≫= k) = (fst (k a), t ++ snd (k a)).
Proof. intros ->. run_M. destruct (k a); reflexivity. Qed.

Lemma bind_Returned {A B} (m : M A) (k : A -> M B) r t :
  m = (Returned r, t) -> (m ≫= k) = (Returned r, t).
Proof. intros ->. reflexivity. Qed.

Lemma bind_Thrown {A B} (m : M A) (k : A -> M B) e t :
  m = (Thrown e, t) -> (m ≫= k) = (Thrown e, t).
Proof. intros ->. reflexivity. Qed.

Lemma bind_pure {A B} (m : M A) (k : A -> M B) a :
  m = (Normal a, []) -> (m ≫= k) = k a.
Proof. intros ->. run_M. destruct (k a); reflexivity. Qed.

(** [JSON.parse], property reads and the assignment never [return]. *)
Lemma JSON_parse_M_cases text :
  JSON_parse_M P text
  = match JSON_parse text with
    | Some v => (Normal v, [])
    | None => (Thrown (ErrorObj (fault_message P (BadJson text))), [])
    end.
Proof. unfold JSON_parse_M. destruct (JSON_parse text); reflexivity. Qed.

Lemma get_named_cases v name :
  (exists x, get_named P v name = (Normal x, []))
  \/ (exists e, get_named P v name = (Thrown e, [])).
Proof. destruct v as [[]|]; simpl; eauto. Qed.

Lemma get_index_cases v i :
  (exists x, get_index P v i = (Normal x, []))
  \/ (exists e, get_index P v i = (Thrown e, [])).
Proof. destruct v as [[]|]; simpl; eauto. Qed.

(** On a completion that is a string, the parser is [JSON.parse] of the
    chosen text, with its error replaced. *)
Lemma quizData_string s :
  quizData P (Some (JStr s))
  = match JSON_parse (jsonText s) with
    | Some v => (Normal v, [])
    | None => (Thrown (ErrorObj (js "Invalid JSON response from AI")), [])
    end.
Proof.
  unfold quizData. rewrite (bind_pure _ _ s); [|reflexivity].
  rewrite JSON_parse_M_cases.
  destruct (JSON_parse (jsonText s)); reflexivity.
Qed.

Lemma quizData_cases content :
  (exists data, quizData P content = (Normal data, []))
  \/ quizData P content
     = (Thrown (ErrorObj (js "Invalid JSON response from AI")), []).
Proof.
  destruct content as [[| | |s| |]|]; try (right; reflexivity).
  rewrite quizData_string.
  destruct (JSON_parse (jsonText s)); [left; eauto | right; reflexivity].
Qed.

Lemma set_wikipedia_url_cases data url :
  (exists p, set_wikipedia_url P data url = (Normal p, []))
  \/ (exists e, set_wikipedia_url P data url = (Thrown e, [])).
Proof. destruct data; simpl; eauto. Qed.

(** The gate, once the body is an object with a [wikipediaUrl]. *)
Lemma request_url_object req m url :
  JSON_parse (body req) = Some (JObj m) ->
  m !! js "wikipediaUrl" = Some url ->
  request_url P req
  = if negb (ToBoolean P (Some url)) then
      (Returned (error_response 400 (js "Wikipedia URL is required")), [])
    else
      match URL_parse P (ToString P url) with
      | None => (Returned (error_response 400 (js "Invalid URL format")), [])
      | Some parsed =>
          if negb (endsWith (hostname parsed) (js ".wikipedia.org"))
             || negb (bool_decide (protocol parsed = js "http:"))
                && negb (bool_decide (protocol parsed = js "https:"))
          then (Returned (error_response 400
                  (js "Invalid Wikipedia URL. Must be from *.wikipedia.org")), [])
          else (Normal url, [])
      end.
Proof.
  intros Hbody Hm. unfold request_url.
  rewrite JSON_parse_M_cases, Hbody.
  rewrite (bind_pure _ _ (JObj m)); [|reflexivity].
  rewrite (bind_pure _ _ (Some url)); [|simpl; rewrite Hm; reflexivity].
  destruct (negb (ToBoolean P (Some url))); [reflexivity|].
  destruct (URL_parse P (ToString P url)) as [parsed|]; [|reflexivity].
  destruct (negb (endsWith (hostname parsed) (js ".wikipedia.org"))
            || negb (bool_decide (protocol parsed = js "http:"))
               && negb (bool_decide (protocol parsed = js "https:")));
    reflexivity.
Qed.

(** The gate answers 400 whenever it answers at all, and calls nothing. *)
Lemma request_url_cases req :
  (exists url, request_url P req = (Normal url, []))
  \/ (exists msg, request_url P req = (Returned (error_response 400 msg), []))
  \/ (exists e, request_url P req = (Thrown e, [])).
Proof.
  destruct (JSON_parse (body req)) as [data|] eqn:Hbody.
  2:{ right; right. unfold request_url. rewrite JSON_parse_M_cases, Hbody.
      eexists; reflexivity. }
  assert (forall x, get_named P (Some data) (js "wikipediaUrl") = (Normal x, []) ->
                    (exists m url, data = JObj m /\ m !! js "wikipediaUrl" = Some url)
                    \/ x = None) as Hget.
  { destruct data; simpl; intros x [= <-]; eauto.
    destruct (props !! js "wikipediaUrl") eqn:E; eauto. }
  destruct (get_named_cases (Some data) (js "wikipediaUrl")) as [[x Hx]|[e He]].
  - destruct (Hget x Hx) as [(m & url & -> & Hm)| ->].
    + rewrite (request_url_object _ _ _ Hbody Hm).
      destruct (negb (ToBoolean P (Some url))); [eauto|].
      destruct (URL_parse P (ToString P url)) as [parsed|]; [|eauto].
      destruct (negb (endsWith (hostname parsed) (js ".wikipedia.org"))
                || negb (bool_decide (protocol parsed = js "http:"))
                   && negb (bool_decide (protocol parsed = js "https:"))); eauto.
    + right; left. unfold request_url. rewrite JSON_parse_M_cases, Hbody.
      rewrite (bind_pure _ _ data); [|reflexivity].
      rewrite (bind_pure _ _ None); [|exact Hx]. eauto.
  - right; right. unfold request_url. rewrite JSON_parse_M_cases, Hbody.
    rewrite (bind_pure _ _ data); [|reflexivity].
    rewrite (bind_Thrown _ _ e []); [eauto | exact He].
Qed.

(** What a validated URL is: the [wikipediaUrl] property of the body. *)
Lemma request_url_Normal req url t :
  request_url P req = (Normal url, t) ->
  exists m, JSON_parse (body req) = Some (JObj m)
            /\ m !! js "wikipediaUrl" = Some url.
Proof.
  intros H.
  destruct (JSON_parse (body req)) as [data|] eqn:Hbody.
  2:{ unfold request_url in H. rewrite JSON_parse_M_cases, Hbody in H.
      discriminate. }
  assert (forall m, data = JObj m -> m !! js "wikipediaUrl" <> None) as Hsome.
  { intros m -> Hm. unfold request_url in H.
    rewrite JSON_parse_M_cases, Hbody in H.
    rewrite (bind_pure _ _ (JObj m)) in H; [|reflexivity].
    rewrite (bind_pure _ _ None) in H; [discriminate|].
    simpl. rewrite Hm. reflexivity. }
  destruct data as [| | | | |m].
  1-5: unfold request_url in H; rewrite JSON_parse_M_cases, Hbody in H;
       discriminate.
  destruct (m !! js "wikipediaUrl") as [x|] eqn:Hm;
    [|exfalso; exact (Hsome m eq_refl Hm)].
  exists m. split; [reflexivity|].
  rewrite (request_url_object _ _ _ Hbody Hm) in H.
  destruct (negb (ToBoolean P (Some x))); [discriminate|].
  destruct (URL_parse P (ToString P x)) as [parsed|]; [|discriminate].
  destruct (negb (endsWith (hostname parsed) (js ".wikipedia.org"))
            || negb (bool_decide (protocol parsed = js "http:"))
               && negb (bool_decide (protocol parsed = js "https:")));
    [discriminate|].
  injection H as -> _. exact Hm.
Qed.

(** Fetching the page makes exactly one call and never [return]s. *)
Lemma fetch_document_cases url :
  (exists doc, fetch_document P W url
               = (Normal doc, [wikiRequest (ToString P url)]))
  \/ (exists e, fetch_document P W url
                = (Thrown e, [wikiRequest (ToString P url)])).
Proof.
  unfold fetch_document, fetch. run_M.
  destruct (fetch_answer W (wikiRequest (ToString P url))) as [r|e]; [|eauto].
  destruct (negb (ok r)); simpl; [eauto|].
  destruct (DOM_parse P (r_text r)); simpl; eauto.
Qed.

(** Extraction calls nothing and never [return]s. *)
Lemma extract_cases doc :
  (exists ttl txt, extract P doc = (Normal (ttl, txt), []))
  \/ (exists e, extract P doc = (Thrown e, [])).
Proof.
  unfold extract. destruct (contentDiv doc); [|right; eexists; reflexivity].
  destruct (length (articleText P _) <? 500)%nat;
    [right; eexists; reflexivity | left; eauto].
Qed.

(** Reading the answer calls nothing, and [return]s only 429 and 402. *)
Lemma read_completion_cases r :
  (exists content, read_completion P r = (Normal content, []))
  \/ (exists st msg, read_completion P r = (Returned (error_response st msg), [])
                     /\ (st = 429 \/ st = 402)%N)
  \/ (exists e, read_completion P r = (Thrown e, [])).
Proof.
  unfold read_completion.
  destruct (negb (ok r)).
  { destruct (r_status r =? 429)%N; [right; left; eauto 10|].
    destruct (r_status r =? 402)%N; [right; left; eauto 10|].
    right; right; eexists; reflexivity. }
  rewrite JSON_parse_M_cases.
  destruct (JSON_parse (r_text r)) as [aiData|];
    [|right; right; eexists; reflexivity].
  rewrite (bind_pure _ _ aiData); [|reflexivity].
  destruct (get_named_cases (Some aiData) (js "choices")) as [[x1 H1]|[e H1]];
    [rewrite (bind_pure _ _ x1); [|exact H1]
    |rewrite (bind_Thrown _ _ e []); [right; right; eauto | exact H1]].
  destruct (get_index_cases x1 0) as [[x2 H2]|[e H2]];
    [rewrite (bind_pure _ _ x2); [|exact H2]
    |rewrite (bind_Thrown _ _ e []); [right; right; eauto | exact H2]].
  destruct (get_named_cases x2 (js "message")) as [[x3 H3]|[e H3]];
    [rewrite (bind_pure _ _ x3); [|exact H3]
    |rewrite (bind_Thrown _ _ e []); [right; right; eauto | exact H3]].
  destruct (get_named_cases x3 (js "content")) as [[x4 H4]|[e H4]];
    rewrite H4; [left; eauto | right; right; eauto].
Qed.

(** With a key configured, the completion stage makes exactly one call. *)
Lemma complete_configured ttl txt key r :
  env_get W (js "LOVABLE_API_KEY") = Some key -> key <> [] ->
  fetch_answer W (aiRequest key ttl txt) = Resolved r ->
  complete P W ttl txt
  = (fst (read_completion P r), [aiRequest key ttl txt]).
Proof.
  intros Hkey Hne Hr. unfold complete. rewrite Hkey.
  destruct key as [|c key]; [congruence|].
  unfold fetch. rewrite Hr. run_M.
  destruct (read_completion_cases r) as [[x H]|[(st & msg & H & _)|[e H]]];
    fold (read_completion P r); rewrite H; reflexivity.
Qed.

Lemma complete_cases ttl txt :
  (exists content t, complete P W ttl txt = (Normal content, t))
  \/ (exists st msg t, complete P W ttl txt = (Returned (error_response st msg), t)
                       /\ (st = 429 \/ st = 402)%N)
  \/ (exists e t, complete P W ttl txt = (Thrown e, t)).
Proof.
  destruct (env_get W (js "LOVABLE_API_KEY")) as [key|] eqn:Hkey.
  2:{ right; right. unfold complete. rewrite Hkey. eauto. }
  destruct key as [|c key].
  { right; right. unfold complete. rewrite Hkey. eauto. }
  destruct (fetch_answer W (aiRequest (c :: key) ttl txt)) as [r|e] eqn:Hr.
  2:{ right; right. unfold complete, fetch. rewrite Hkey, Hr. eauto. }
  rewrite (complete_configured _ _ _ _ Hkey ltac:(discriminate) Hr).
  destruct (read_completion_cases r) as [[x H]|[(st & msg & H & Hst)|[e H]]];
    rewrite H; simpl; eauto 10.
Qed.

(** The completion stage calls the service exactly when a key is set. *)
Lemma complete_trace ttl txt key :
  env_get W (js "LOVABLE_API_KEY") = Some key -> key <> [] ->
  snd (complete P W ttl txt) = [aiRequest key ttl txt].
Proof.
  intros Hkey Hne.
  destruct (fetch_answer W (aiRequest key ttl txt)) as [r|e] eqn:Hr.
  - rewrite (complete_configured _ _ _ _ Hkey Hne Hr). reflexivity.
  - unfold complete, fetch. rewrite Hkey.
    destruct key as [|c key]; [congruence|]. rewrite Hr. reflexivity.
Qed.

(** The last stage calls nothing; it answers 200 or throws. *)
Lemma respond_cases url content :
  (exists data p, quizData P content = (Normal data, [])
                  /\ set_wikipedia_url P data url = (Normal p, [])
                  /\ respond P url content
                     = (Returned {| status := 200; headers := jsonHeaders;
                                    payload := Some p |}, []))
  \/ (exists e, respond P url content = (Thrown e, [])).
Proof.
  unfold respond.
  destruct (quizData_cases content) as [[data Hd]|Hd].
  2:{ right. rewrite (bind_Thrown _ _ _ _ Hd). eauto. }
  rewrite (bind_pure _ _ data Hd).
  destruct (set_wikipedia_url_cases data url) as [[p Hp]|[e Hp]].
  - left. exists data, p. rewrite (bind_pure _ _ p Hp). auto.
  - right. rewrite (bind_Thrown _ _ _ _ Hp). eauto.
Qed.

Lemma bind_trace {A B} (m : M A) (k : A -> M B) a t :
  m = (Normal a, t) -> (m ≫= k) = (fst (k a), t ++ snd (k a)).
Proof. intros ->. run_M. destruct (k a); reflexivity. Qed.

(** The pipeline once the page is fetched and parsed. *)
Lemma pipeline_fetched req url doc t :
  request_url P req = (Normal url, []) ->
  fetch_document P W url = (Normal doc, t) ->
  pipeline P W req
  = let rest := ('(ttl, txt) ← extract P doc;
                 c ← complete P W ttl txt; respond P url c) in
    (fst rest, t ++ snd rest).
Proof.
  intros Hurl Hdoc. unfold pipeline.
  rewrite (bind_pure _ _ url Hurl).
  rewrite (bind_trace _ _ doc t Hdoc). reflexivity.
Qed.

(** The pipeline once the article is extracted. *)
Lemma pipeline_extracted req url doc t ttl txt :
  request_url P req = (Normal url, []) ->
  fetch_document P W url = (Normal doc, t) ->
  extract P doc = (Normal (ttl, txt), []) ->
  pipeline P W req
  = let rest := (c ← complete P W ttl txt; respond P url c) in
    (fst rest, t ++ snd rest).
Proof.
  intros Hurl Hdoc Hex. rewrite (pipeline_fetched _ _ _ _ Hurl Hdoc).
  rewrite (bind_pure _ _ (ttl, txt) Hex). reflexivity.
Qed.

(** The pipeline once the completion text is there. *)
Lemma pipeline_completed req url doc t ttl txt content t' :
  request_url P req = (Normal url, []) ->
  fetch_document P W url = (Normal doc, t) ->
  extract P doc = (Normal (ttl, txt), []) ->
  complete P W ttl txt = (Normal content, t') ->
  pipeline P W req = (fst (respond P url content), t ++ t').
Proof.
  intros Hurl Hdoc Hex Hc. rewrite (pipeline_extracted _ _ _ _ _ _ Hurl Hdoc Hex).
  cbv zeta. rewrite (bind_trace _ _ content t' Hc). simpl.
  destruct (respond_cases url content) as [(d & p & _ & _ & H)|[e H]];
    rewrite H; simpl; rewrite app_nil_r; reflexivity.
Qed.

Lemma handler_pipeline req :
  method req <> js "OPTIONS" ->
  handler P W req
  = match pipeline P W req with
    | (Normal r, t) | (Returned r, t) => (r, t)
    | (Thrown error, t) =>
        (error_response 500
           match error with
           | ErrorObj message => message
           | NonError => js "Failed to generate quiz"
           end, t)
    end.
Proof.
  intros H. unfold handler. rewrite bool_decide_eq_false_2; [reflexivity | exact H].
Qed.

Lemma handler_trace req :
  method req <> js "OPTIONS" -> snd (handler P W req) = snd (pipeline P W req).
Proof.
  intros H. rewrite (handler_pipeline _ H).
  destruct (pipeline P W req) as [[r|r|e] t]; reflexivity.
Qed.

(** After the completion stage nothing more is called. *)
Lemma respond_after_complete_trace url ttl txt :
  snd (c ← complete P W ttl txt; respond P url c) = snd (complete P W ttl txt).
Proof.
  destruct (complete_cases ttl txt)
    as [(c & t & H)|[(st & msg & t & H & _)|(e & t & H)]].
  - rewrite (bind_trace _ _ c t H), H.
    destruct (respond_cases url c) as [(d & p & _ & _ & Hr)|[e Hr]];
      rewrite Hr; simpl; apply app_nil_r.
  - rewrite (bind_Returned _ _ _ _ H), H. reflexivity.
  - rewrite (bind_Thrown _ _ _ _ H), H. reflexivity.
Qed.

(** With an article extracted and a key set, the handler makes the two
    calls, whatever the completion service answers. *)
Lemma handler_calls req url doc t ttl txt key :
  method req <> js "OPTIONS" ->
  request_url P req = (Normal url, []) ->
  fetch_document P W url = (Normal doc, t) ->
  extract P doc = (Normal (ttl, txt), []) ->
  env_get W (js "LOVABLE_API_KEY") = Some key -> key <> [] ->
  snd (handler P W req) = t ++ [aiRequest key ttl txt].
Proof.
  intros Hmethod Hurl Hdoc Hex Hkey Hne.
  rewrite (handler_trace _ Hmethod).
  rewrite (pipeline_extracted _ _ _ _ _ _ Hurl Hdoc Hex). cbv zeta.
  cbn [snd]. rewrite respond_after_complete_trace.
  rewrite (complete_trace _ _ _ Hkey Hne). reflexivity.
Qed.

(** Every 200 with a body comes from the last stage. *)
Lemma handler_200_inv req resp t p :
  handler P W req = (resp, t) -> status resp = 200%N -> payload resp = Some p ->
  exists url doc ttl txt content data t1 t2,
    request_url P req = (Normal url, [])
    /\ fetch_document P W url = (Normal doc, t1)
    /\ extract P doc = (Normal (ttl, txt), [])
    /\ complete P W ttl txt = (Normal content, t2)
    /\ quizData P content = (Normal data, [])
    /\ set_wikipedia_url P data url = (Normal p, []).
Proof.
  intros H Hst Hp.
  destruct (decide (method req = js "OPTIONS")) as [Ho|Hm].
  { unfold handler in H. rewrite bool_decide_eq_true_2 in H by exact Ho.
    injection H as <- _. discriminate Hp. }
  rewrite (handler_pipeline _ Hm) in H.
  destruct (request_url_cases req) as [[url Hu]|[[msg Hu]|[e Hu]]].
  2:{ unfold pipeline in H. rewrite (bind_Returned _ _ _ _ Hu) in H.
      injection H as <- _. discriminate Hst. }
  2:{ unfold pipeline in H. rewrite (bind_Thrown _ _ _ _ Hu) in H.
      injection H as <- _. discriminate Hst. }
  destruct (fetch_document_cases url) as [[doc Hd]|[e Hd]].
  2:{ unfold pipeline in H. rewrite (bind_pure _ _ url Hu) in H.
      rewrite (bind_Thrown _ _ _ _ Hd) in H.
      injection H as <- _. discriminate Hst. }
  destruct (extract_cases doc) as [(ttl & txt & He)|[e He]].
  2:{ rewrite (pipeline_fetched _ _ _ _ Hu Hd) in H. cbv zeta in H.
      rewrite (bind_Thrown _ _ _ _ He) in H.
      injection H as <- _. discriminate Hst. }
  destruct (complete_cases ttl txt)
    as [(c & t' & Hc)|[(st & msg & t' & Hc & Hcode)|(e & t' & Hc)]].
  - rewrite (pipeline_completed _ _ _ _ _ _ _ _ Hu Hd He Hc) in H.
    destruct (respond_cases url c) as [(d & p' & Hq & Hs & Hr)|[e Hr]];
      rewrite Hr in H; injection H as <- _.
    + injection Hp as <-. eauto 15.
    + discriminate Hst.
  - rewrite (pipeline_extracted _ _ _ _ _ _ Hu Hd He) in H. cbv zeta in H.
    rewrite (bind_Returned _ _ _ _ Hc) in H. injection H as <- _.
    rewrite status_error_response in Hst. destruct Hcode; subst; discriminate.
  - rewrite (pipeline_extracted _ _ _ _ _ _ Hu Hd He) in H. cbv zeta in H.
    rewrite (bind_Thrown _ _ _ _ Hc) in H. injection H as <- _.
    discriminate Hst.
Qed.

(** The assignment leaves [quiz] alone. *)
Lemma set_wikipedia_url_quiz data url p :
  set_wikipedia_url P data url = (Normal p, []) ->
  quiz_field p = quiz_field data.
Proof.
  destruct data; try discriminate; intros [= <-]; [reflexivity|].
  simpl. apply lookup_insert_ne. vm_compute. discriminate.
Qed.

End Stages.

(* ===================================================================== *)
(** ** The properties of the specification *)
(* ===================================================================== *)

(** C1.  A request whose [wikipediaUrl] parses as a URL with a hostname
    that does not end in ".wikipedia.org", or with a protocol that is
    neither "http:" nor "https:", is answered with status 400 and a body
    that has the single field [error]; no network call is made, neither
    the Wikipedia GET nor the completion POST. *)
Theorem non_wikipedia_url_rejected (P : Platform) (W : World) (req : Request)
    (m : gmap jsstring json) (url : json) (parsed : URL) :
  method req <> js "OPTIONS" ->
  JSON_parse (body req) = Some (JObj m) ->
  m !! js "wikipediaUrl" = Some url ->
  URL_parse P (ToString P url) = Some parsed ->
  endsWith (hostname parsed) (js ".wikipedia.org") = false
  \/ (protocol parsed <> js "http:" /\ protocol parsed <> js "https:") ->
  exists msg,
    handler P W req
    = ({| status := 400; headers := jsonHeaders;
          payload := Some (JObj {[ js "error" := JStr msg ]}) |}, []).
Proof.
  intros Hmethod Hbody Hm Hparse Hbad.
  rewrite (handler_pipeline _ _ _ Hmethod). unfold pipeline.
  rewrite (request_url_object P _ _ _ Hbody Hm), Hparse.
  assert (negb (endsWith (hostname parsed) (js ".wikipedia.org"))
          || negb (bool_decide (protocol parsed = js "http:"))
             && negb (bool_decide (protocol parsed = js "https:")) = true) as ->.
  { destruct Hbad as [-> | [H1 H2]]; [reflexivity|].
    rewrite !bool_decide_eq_false_2 by assumption. apply orb_true_r. }
  destruct (negb (ToBoolean P (Some url))); eexists; reflexivity.
Qed.

Lemma non_wikipedia_url_rejected_witness :
  exists msg,
    handler (Sample.platform []) (Sample.world [] 200 [] None)
      (Sample.post (jsq "{'wikipediaUrl': 'http://example.org/wiki/Test'}"))
    = ({| status := 400; headers := jsonHeaders;
          payload := Some (JObj {[ js "error" := JStr msg ]}) |}, []).
Proof.
  apply (non_wikipedia_url_rejected _ _ _
           {[ js "wikipediaUrl" := JStr (js "http://example.org/wiki/Test") ]}
           (JStr (js "http://example.org/wiki/Test"))
           {| protocol := js "http:"; hostname := js "example.org" |}).
  - vm_compute. discriminate.
  - vm_compute. reflexivity.
  - vm_compute. reflexivity.
  - vm_compute. reflexivity.
  - left. vm_compute. reflexivity.
Defined.

(** C3.  For every text [t] that [JSON.parse] accepts, the response parser
    gives on the fenced completion, "```json\n" + t + "\n```", the same
    result as on [t] itself: the value [JSON.parse(t)]. *)
Theorem fenced_parse_same (P : Platform) (t : jsstring) (v : json) :
  JSON_parse t = Some v ->
  quizData P (Some (JStr (fenced t))) = quizData P (Some (JStr t))
  /\ quizData P (Some (JStr t)) = (Normal v, []).
Proof.
  intros Hv. pose proof (JSON_parse_nl_tick_free _ _ Hv) as Hfree.
  assert (jsonText (fenced t) = t) as Hf.
  { unfold jsonText, jsonMatch, fenced.
    change (js "```json" ++ [10%N] ++ t ++ [10%N] ++ js "```")
      with (opening fence_json ++ t ++ fence_close).
    rewrite String_match_fenced; auto. }
  assert (jsonText t = t) as Ht.
  { unfold jsonText, jsonMatch. rewrite !String_match_free; auto. }
  rewrite !quizData_string, Hf, Ht, Hv. split; reflexivity.
Qed.

Lemma fenced_parse_same_witness :
  quizData (Sample.platform []) (Some (JStr (fenced (jsq "{'quiz': [1, 2]}"))))
  = quizData (Sample.platform []) (Some (JStr (jsq "{'quiz': [1, 2]}")))
  /\ quizData (Sample.platform []) (Some (JStr (jsq "{'quiz': [1, 2]}")))
     = (Normal (JObj {[ js "quiz" := JArr [JNum (js "1"); JNum (js "2")] ]}), []).
Proof.
  apply (fenced_parse_same (Sample.platform []) (jsq "{'quiz': [1, 2]}")).
  vm_compute. reflexivity.
Defined.

(** C4.  When the completion service answers with a non-success status,
    the handler answers 429 with "Rate limit exceeded. Please try again
    later." for 429, 402 for 402, and 500 for every other status; the body
    is the single-field error object, never a quiz. *)
Theorem completion_failure_status (P : Platform) (W : World) (req : Request)
    (url : json) (doc : document) (t : list fetch_request)
    (ttl txt key : jsstring) (r : http_response) :
  method req <> js "OPTIONS" ->
  request_url P req = (Normal url, []) ->
  fetch_document P W url = (Normal doc, t) ->
  extract P doc = (Normal (ttl, txt), []) ->
  env_get W (js "LOVABLE_API_KEY") = Some key -> key <> [] ->
  fetch_answer W (aiRequest key ttl txt) = Resolved r ->
  ok r = false ->
  handler P W req
  = (if (r_status r =? 429)%N then
       {| status := 429; headers := jsonHeaders;
          payload :=
            Some (JObj {[ js "error" :=
              JStr (js "Rate limit exceeded. Please try again later.") ]}) |}
     else if (r_status r =? 402)%N then
       {| status := 402; headers := jsonHeaders;
          payload :=
            Some (JObj {[ js "error" :=
              JStr (js "Payment required. Please add credits to your Lovable AI workspace.") ]}) |}
     else {| status := 500; headers := jsonHeaders;
             payload :=
               Some (JObj {[ js "error" :=
                 JStr (js "AI generation failed") ]}) |},
     t ++ [aiRequest key ttl txt]).
Proof.
  intros Hmethod Hurl Hdoc Hex Hkey Hne Hr Hok.
  rewrite (handler_pipeline _ _ _ Hmethod).
  rewrite (pipeline_extracted _ _ _ _ _ _ _ _ Hurl Hdoc Hex). cbv zeta.
  rewrite (complete_configured _ _ _ _ _ _ Hkey Hne Hr).
  unfold read_completion. rewrite Hok. simpl negb. cbv iota.
  destruct (r_status r =? 429)%N; [reflexivity|].
  destruct (r_status r =? 402)%N; reflexivity.
Qed.

Lemma completion_failure_status_witness :
  handler (Sample.platform [Sample.test_page])
          (Sample.world (fst Sample.test_page) 429 (js "slow down")
                        (Some (js "secret")))
          Sample.test_request
  = ({| status := 429; headers := jsonHeaders;
        payload :=
          Some (JObj {[ js "error" :=
            JStr (js "Rate limit exceeded. Please try again later.") ]}) |},
     [ wikiRequest Sample.test_url ]
     ++ [ aiRequest (js "secret") (js "Test") Sample.test_text ]).
Proof.
  apply (completion_failure_status
           (Sample.platform [Sample.test_page])
           (Sample.world (fst Sample.test_page) 429 (js "slow down")
                         (Some (js "secret")))
           Sample.test_request (JStr Sample.test_url) (snd Sample.test_page)
           [wikiRequest Sample.test_url] (js "Test") Sample.test_text (js "secret")
           {| r_status := 429; r_text := js "slow down" |}).
  - vm_compute. discriminate.
  - vm_compute. reflexivity.
  - vm_compute. reflexivity.
  - vm_compute. reflexivity.
  - vm_compute. reflexivity.
  - vm_compute. discriminate.
  - vm_compute. reflexivity.
  - vm_compute. reflexivity.
Defined.

(** C5.  When neither the inner text of a fenced block nor the whole
    completion text parses as JSON, the handler answers 500 with the body
    {error: "Invalid JSON response from AI"}. *)
Theorem unparsable_completion (P : Platform) (W : World) (req : Request)
    (url : json) (doc : document) (t t' : list fetch_request)
    (ttl txt c : jsstring) :
  method req <> js "OPTIONS" ->
  request_url P req = (Normal url, []) ->
  fetch_document P W url = (Normal doc, t) ->
  extract P doc = (Normal (ttl, txt), []) ->
  complete P W ttl txt = (Normal (Some (JStr c)), t') ->
  JSON_parse c = None ->
  (forall cap, String_match fence_json c = Some cap -> JSON_parse cap = None) ->
  (forall cap, String_match fence_plain c = Some cap -> JSON_parse cap = None) ->
  handler P W req
  = ({| status := 500; headers := jsonHeaders;
        payload := Some (JObj {[ js "error" :=
                                 JStr (js "Invalid JSON response from AI") ]}) |},
     t ++ t').
Proof.
  intros Hmethod Hurl Hdoc Hex Hc Hwhole Hjson Hplain.
  rewrite (handler_pipeline _ _ _ Hmethod).
  rewrite (pipeline_completed _ _ _ _ _ _ _ _ _ _ Hurl Hdoc Hex Hc).
  assert (JSON_parse (jsonText c) = None) as Hnone.
  { unfold jsonText, jsonMatch.
    destruct (String_match fence_json c) as [cap|] eqn:E1; [auto|].
    destruct (String_match fence_plain c) as [cap|] eqn:E2; auto. }
  unfold respond. rewrite quizData_string, Hnone. reflexivity.
Qed.

Lemma unparsable_completion_witness :
  handler (Sample.platform [Sample.test_page])
          (Sample.world (fst Sample.test_page) 200
             (Sample.completion (js "Sorry, I cannot do that."))
             (Some (js "secret")))
          Sample.test_request
  = ({| status := 500; headers := jsonHeaders;
        payload := Some (JObj {[ js "error" :=
                                 JStr (js "Invalid JSON response from AI") ]}) |},
     [ wikiRequest Sample.test_url ]
     ++ [ aiRequest (js "secret") (js "Test") Sample.test_text ]).
Proof.
  apply (unparsable_completion
           (Sample.platform [Sample.test_page])
           (Sample.world (fst Sample.test_page) 200
              (Sample.completion (js "Sorry, I cannot do that."))
              (Some (js "secret")))
           Sample.test_request (JStr Sample.test_url) (snd Sample.test_page)
           [wikiRequest Sample.test_url]
           [aiRequest (js "secret") (js "Test") Sample.test_text]
           (js "Test") Sample.test_text (js "Sorry, I cannot do that.")).
  - vm_compute. discriminate.
  - vm_compute. reflexivity.
  - vm_compute. reflexivity.
  - vm_compute. reflexivity.
  - vm_compute. reflexivity.
  - vm_compute. reflexivity.
  - intros cap H. vm_compute in H. discriminate.
  - intros cap H. vm_compute in H. discriminate.
Defined.

(** C6.  Of the paragraphs of the content container, exactly those whose
    trimmed text is longer than 50 code units survive, in order, and the
    article text is the survivors joined by a blank line (then limited to
    15,000 code units).  For four paragraphs of trimmed lengths 10, 60, 40
    and 200, the second and the fourth survive. *)
Theorem paragraph_filter (P : Platform) (div : located) (a b c d : jsstring) :
  length (trim a) = 10 -> length (trim b) = 60 ->
  length (trim c) = 40 -> length (trim d) = 200 ->
  paragraphs P div
  = List.filter (fun text => (50 <? length text)%nat)
      (map (fun p => trim (textContent (snd p)))
           (querySelectorAll div (Simple (ByTag (js "p")))))
  /\ articleText P div = slice0 15000 (join [10; 10]%N (paragraphs P div))
  /\ keep_paragraphs P [a; b; c; d] = [trim b; trim d]
  /\ limit_text (keep_paragraphs P [a; b; c; d])
     = trim b ++ [10; 10]%N ++ trim d.
Proof.
  intros Ha Hb Hc Hd.
  assert (forall text : jsstring,
            ToBoolean P (Some (JStr text)) && (50 <? length text)%nat
            = (50 <? length text)%nat) as Htruthy.
  { intros [|x text]; reflexivity. }
  split; [|split; [reflexivity|]].
  - unfold paragraphs, keep_paragraphs. rewrite map_map.
    apply filter_ext. intros text. apply Htruthy.
  - assert (keep_paragraphs P [a; b; c; d] = [trim b; trim d]) as Hkeep.
    { unfold keep_paragraphs.
      cbn [map List.filter]. rewrite !Htruthy, Ha, Hb, Hc, Hd. reflexivity. }
    split; [exact Hkeep|].
    rewrite Hkeep. unfold limit_text. apply take_length_le.
    cbn [join]. rewrite !length_app, Hb, Hd.
    apply Nat.leb_le. vm_compute. reflexivity.
Qed.

Lemma paragraph_filter_witness :
  keep_paragraphs (Sample.platform [])
    [ js "  " ++ Sample.para 10; Sample.para 60 ++ js " "; Sample.para 40;
      [10%N] ++ Sample.para 200 ++ [10%N] ]
  = [ Sample.para 60; Sample.para 200 ]
  /\ limit_text
       (keep_paragraphs (Sample.platform [])
          [ js "  " ++ Sample.para 10; Sample.para 60 ++ js " "; Sample.para 40;
            [10%N] ++ Sample.para 200 ++ [10%N] ])
     = Sample.para 60 ++ [10; 10]%N ++ Sample.para 200.
Proof.
  pose proof (paragraph_filter (Sample.platform [])
    ([], Element (js "div") None [] [])
    (js "  " ++ Sample.para 10) (Sample.para 60 ++ js " ") (Sample.para 40)
    ([10%N] ++ Sample.para 200 ++ [10%N])) as H.
  destruct H as (_ & _ & H1 & H2).
  - vm_compute. reflexivity.
  - vm_compute. reflexivity.
  - vm_compute. reflexivity.
  - vm_compute. reflexivity.
  - split; [exact H1 | exact H2].
Defined.

(** C7.  The article text handed on by the extraction is the joined
    paragraphs cut to their first 15,000 code units when they are longer
    than that, and the joined paragraphs unchanged otherwise. *)
Theorem article_text_truncated (P : Platform) (doc : document) (div : located)
    (ttl txt : jsstring) :
  contentDiv doc = Some div ->
  extract P doc = (Normal (ttl, txt), []) ->
  let joined := join [10; 10]%N (paragraphs P div) in
  (15000 < length joined -> txt = take 15000 joined /\ length txt = 15000)
  /\ (length joined <= 15000 -> txt = joined).
Proof.
  intros Hdiv Hex joined.
  assert (txt = slice0 15000 joined) as ->.
  { unfold extract in Hex. rewrite Hdiv in Hex.
    destruct (length (articleText P div) <? 500)%nat; [discriminate|].
    injection Hex as _ <-. reflexivity. }
  split.
  - intros Hlong. split; [reflexivity | apply take_length_gt, Hlong].
  - intros Hshort. apply take_length_le, Hshort.
Qed.

Lemma article_text_truncated_witness :
  let joined :=
    join [10; 10]%N
      (paragraphs (Sample.platform [])
         (Sample.page_div (Some (js "Test")) [Sample.para 8000; Sample.para 8000])) in
  Sample.para 8000 ++ [10; 10]%N ++ Sample.para 6998 = take 15000 joined
  /\ length (Sample.para 8000 ++ [10; 10]%N ++ Sample.para 6998) = 15000.
Proof.
  refine (proj1 (article_text_truncated (Sample.platform [])
                   (snd Sample.long_page)
                   (Sample.page_div (Some (js "Test"))
                      [Sample.para 8000; Sample.para 8000])
                   (js "Test")
                   (Sample.para 8000 ++ [10; 10]%N ++ Sample.para 6998) _ _) _).
  - vm_compute. reflexivity.
  - vm_compute. reflexivity.
  - apply Nat.ltb_lt. vm_compute. reflexivity.
Defined.

(** C8.  When the article text, after filtering and truncation, is shorter
    than 500 code units, the handler answers 500 with the "too short"
    error and makes no completion request: the only call is the Wikipedia
    GET.  With 500 code units or more the extraction succeeds and, a key
    being configured, the completion request is made. *)
Theorem short_article_rejected (P : Platform) (W : World) (req : Request)
    (url : json) (doc : document) (div : located) :
  method req <> js "OPTIONS" ->
  request_url P req = (Normal url, []) ->
  fetch_document P W url = (Normal doc, [wikiRequest (ToString P url)]) ->
  contentDiv doc = Some div ->
  (length (articleText P div) < 500 ->
   handler P W req
   = ({| status := 500; headers := jsonHeaders;
         payload :=
           Some (JObj {[ js "error" :=
             JStr (js "Article content is too short to generate a meaningful quiz") ]}) |},
      [wikiRequest (ToString P url)]))
  /\ (500 <= length (articleText P div) ->
      extract P doc = (Normal (title P doc, articleText P div), [])
      /\ forall key, env_get W (js "LOVABLE_API_KEY") = Some key -> key <> [] ->
           snd (handler P W req)
           = [ wikiRequest (ToString P url);
               aiRequest key (title P doc) (articleText P div) ]).
Proof.
  intros Hmethod Hurl Hdoc Hdiv. split.
  - intros Hshort.
    assert (extract P doc
            = (Thrown (ErrorObj
                 (js "Article content is too short to generate a meaningful quiz")),
               [])) as Hex.
    { unfold extract. rewrite Hdiv.
      destruct (Nat.ltb_spec (length (articleText P div)) 500); [reflexivity | lia]. }
    rewrite (handler_pipeline _ _ _ Hmethod).
    rewrite (pipeline_fetched _ _ _ _ _ _ Hurl Hdoc). cbv zeta.
    rewrite (bind_Thrown _ _ _ _ Hex). reflexivity.
  - intros Hlong.
    assert (extract P doc = (Normal (title P doc, articleText P div), [])) as Hex.
    { unfold extract. rewrite Hdiv.
      destruct (Nat.ltb_spec (length (articleText P div)) 500); [lia | reflexivity]. }
    split; [exact Hex|]. intros key Hkey Hne.
    exact (handler_calls _ _ _ _ _ _ _ _ _ Hmethod Hurl Hdoc Hex Hkey Hne).
Qed.

Lemma short_article_rejected_witness :
  handler (Sample.platform [Sample.stub_page])
          (Sample.world (fst Sample.stub_page) 200 [] (Some (js "secret")))
          Sample.test_request
  = ({| status := 500; headers := jsonHeaders;
        payload :=
          Some (JObj {[ js "error" :=
            JStr (js "Article content is too short to generate a meaningful quiz") ]}) |},
     [wikiRequest (ToString (Sample.platform [Sample.stub_page])
                     (JStr Sample.test_url))]).
Proof.
  refine (proj1 (short_article_rejected
                   (Sample.platform [Sample.stub_page])
                   (Sample.world (fst Sample.stub_page) 200 [] (Some (js "secret")))
                   Sample.test_request (JStr Sample.test_url)
                   (snd Sample.stub_page)
                   (Sample.page_div (Some (js "Test")) [Sample.para 100])
                   _ _ _ _) _).
  - vm_compute. discriminate.
  - vm_compute. reflexivity.
  - vm_compute. reflexivity.
  - vm_compute. reflexivity.
  - apply Nat.ltb_lt. vm_compute. reflexivity.
Defined.

(** C10.  When the document has the content container but no
    [#firstHeading] element, or one whose trimmed text is empty, the title
    is "Unknown Article" and extraction goes on as usual: it yields that
    title with the article text (or the "too short" error, as for any
    document), and the completion request carries the default title. *)
Theorem missing_title_defaults (P : Platform) (doc : document) (div : located) :
  contentDiv doc = Some div ->
  doc_querySelector doc (Simple (ById (js "firstHeading"))) = None
  \/ (exists h, doc_querySelector doc (Simple (ById (js "firstHeading"))) = Some h
                /\ trim (textContent (snd h)) = []) ->
  title P doc = js "Unknown Article"
  /\ extract P doc
     = (if (length (articleText P div) <? 500)%nat then
          (Thrown (ErrorObj
             (js "Article content is too short to generate a meaningful quiz")),
           [])
        else (Normal (js "Unknown Article", articleText P div), []))
  /\ forall (W : World) (req : Request) (url : json) (t : list fetch_request)
            (key : jsstring),
       method req <> js "OPTIONS" ->
       request_url P req = (Normal url, []) ->
       fetch_document P W url = (Normal doc, t) ->
       500 <= length (articleText P div) ->
       env_get W (js "LOVABLE_API_KEY") = Some key -> key <> [] ->
       snd (handler P W req)
       = t ++ [aiRequest key (js "Unknown Article") (articleText P div)].
Proof.
  intros Hdiv Hheading.
  assert (title P doc = js "Unknown Article") as Htitle.
  { unfold title. destruct Hheading as [-> | (h & -> & ->)]; reflexivity. }
  assert (extract P doc
          = (if (length (articleText P div) <? 500)%nat then
               (Thrown (ErrorObj
                  (js "Article content is too short to generate a meaningful quiz")),
                [])
             else (Normal (js "Unknown Article", articleText P div), []))) as Hex.
  { unfold extract. rewrite Hdiv, Htitle. reflexivity. }
  split; [exact Htitle | split; [exact Hex|]].
  intros W req url t key Hmethod Hurl Hdoc Hlong Hkey Hne.
  apply (handler_calls P W req url doc); auto.
  rewrite Hex. destruct (Nat.ltb_spec (length (articleText P div)) 500);
    [lia | reflexivity].
Qed.

Lemma missing_title_defaults_witness :
  title (Sample.platform []) (snd Sample.untitled_page) = js "Unknown Article"
  /\ extract (Sample.platform []) (snd Sample.untitled_page)
     = (Normal (js "Unknown Article", Sample.test_text), []).
Proof.
  destruct (missing_title_defaults (Sample.platform [])
              (snd Sample.untitled_page)
              (Sample.page_div None [Sample.para 200; Sample.para 200; Sample.para 200]))
    as (Htitle & Hex & _).
  - vm_compute. reflexivity.
  - left. vm_compute. reflexivity.
  - split; [exact Htitle|]. rewrite Hex. vm_compute. reflexivity.
Defined.

(** C9.  On the success path the handler answers 200 with the object
    parsed from the completion in which [wikipedia_url] is set to the
    [wikipediaUrl] of the request; every other property is as parsed. *)
Theorem success_attaches_url (P : Platform) (W : World) (req : Request)
    (url : json) (doc : document) (t t' : list fetch_request)
    (ttl txt : jsstring) (content : jsval) (m : gmap jsstring json) :
  method req <> js "OPTIONS" ->
  request_url P req = (Normal url, []) ->
  fetch_document P W url = (Normal doc, t) ->
  extract P doc = (Normal (ttl, txt), []) ->
  complete P W ttl txt = (Normal content, t') ->
  quizData P content = (Normal (JObj m), []) ->
  handler P W req
  = ({| status := 200; headers := jsonHeaders;
        payload := Some (JObj (<[js "wikipedia_url" := url]> m)) |}, t ++ t')
  /\ (<[js "wikipedia_url" := url]> m) !! js "wikipedia_url" = Some url
  /\ (forall k, k <> js "wikipedia_url" ->
                (<[js "wikipedia_url" := url]> m) !! k = m !! k)
  /\ exists m0, JSON_parse (body req) = Some (JObj m0)
                /\ m0 !! js "wikipediaUrl" = Some url.
Proof.
  intros Hmethod Hurl Hdoc Hex Hc Hq.
  split; [|split; [|split]].
  - rewrite (handler_pipeline _ _ _ Hmethod).
    rewrite (pipeline_completed _ _ _ _ _ _ _ _ _ _ Hurl Hdoc Hex Hc).
    unfold respond. rewrite (bind_pure _ _ (JObj m) Hq). reflexivity.
  - apply lookup_insert_eq.
  - intros k Hk. apply lookup_insert_ne. congruence.
  - exact (request_url_Normal P _ _ _ Hurl).
Qed.

Lemma success_attaches_url_witness :
  handler (Sample.platform [Sample.test_page])
          (Sample.world (fst Sample.test_page) 200
             (Sample.completion
                (jsq "```json\n{\'title\':\'Test\',\'wikipedia_url\':\'x\',\'quiz\':[]}\n```"))
             (Some (js "secret")))
          Sample.test_request
  = ({| status := 200; headers := jsonHeaders;
        payload := Some (JObj (<[js "wikipedia_url" := JStr Sample.test_url]>
                                 {[ js "title" := JStr (js "Test");
                                    js "wikipedia_url" := JStr (js "x");
                                    js "quiz" := JArr [] ]})) |},
     [ wikiRequest Sample.test_url ]
     ++ [ aiRequest (js "secret") (js "Test") Sample.test_text ]).
Proof.
  refine (proj1 (success_attaches_url
                   (Sample.platform [Sample.test_page])
                   (Sample.world (fst Sample.test_page) 200
                      (Sample.completion
                         (jsq "```json\n{\'title\':\'Test\',\'wikipedia_url\':\'x\',\'quiz\':[]}\n```"))
                      (Some (js "secret")))
                   Sample.test_request (JStr Sample.test_url)
                   (snd Sample.test_page) _ _ (js "Test") Sample.test_text
                   (Some (JStr (fenced
                      (jsq "{'title':'Test','wikipedia_url':'x','quiz':[]}"))))
                   _ _ _ _ _ _ _)).
  - vm_compute. discriminate.
  - vm_compute. reflexivity.
  - vm_compute. reflexivity.
  - vm_compute. reflexivity.
  - vm_compute. reflexivity.
  - vm_compute. reflexivity.
Defined.

(** C2, as the code has it.  The handler does not validate the quiz: in
    every payload answered with 200, the [quiz] array is the one parsed
    from the completion, so its answers are option labels exactly when
    those of the completion are. *)
Theorem quiz_array_forwarded (P : Platform) (W : World) (req : Request)
    (resp : Response) (t : list fetch_request) (p : json) :
  handler P W req = (resp, t) ->
  status resp = 200%N ->
  payload resp = Some p ->
  exists url doc ttl txt content data t1 t2,
    request_url P req = (Normal url, [])
    /\ fetch_document P W url = (Normal doc, t1)
    /\ extract P doc = (Normal (ttl, txt), [])
    /\ complete P W ttl txt = (Normal content, t2)
    /\ quizData P content = (Normal data, [])
    /\ quiz_field p = quiz_field data
    /\ (answers_are_labels p <-> answers_are_labels data).
Proof.
  intros H Hst Hp.
  destruct (handler_200_inv P W _ _ _ _ H Hst Hp)
    as (url & doc & ttl & txt & content & data & t1 & t2
        & Hu & Hd & He & Hc & Hq & Hs).
  pose proof (set_wikipedia_url_quiz P _ _ _ Hs) as Hquiz.
  exists url, doc, ttl, txt, content, data, t1, t2.
  repeat (split; [assumption|]).
  unfold answers_are_labels. rewrite Hquiz. reflexivity.
Qed.

Lemma quiz_array_forwarded_witness :
  exists data,
    quizData (Sample.platform [Sample.test_page])
      (Some (JStr (fenced (jsq "{'quiz':[{'answer':'B'}]}"))))
    = (Normal data, [])
    /\ quiz_field data = Some (JArr [JObj {[ js "answer" := JStr (js "B") ]}]).
Proof.
  destruct (quiz_array_forwarded
              (Sample.platform [Sample.test_page])
              (Sample.world (fst Sample.test_page) 200
                 (Sample.completion
                    (jsq "```json\n{\'quiz\':[{\'answer\':\'B\'}]}\n```"))
                 (Some (js "secret")))
              Sample.test_request
              {| status := 200; headers := jsonHeaders;
                 payload := Some (JObj
                   {[ js "quiz" := JArr [JObj {[ js "answer" := JStr (js "B") ]}];
                      js "wikipedia_url" := JStr Sample.test_url ]}) |}
              [ wikiRequest Sample.test_url;
                aiRequest (js "secret") (js "Test") Sample.test_text ]
              (JObj
                 {[ js "quiz" := JArr [JObj {[ js "answer" := JStr (js "B") ]}];
                    js "wikipedia_url" := JStr Sample.test_url ]}))
    as (url & doc & ttl & txt & content & data & t1 & t2
        & Hu & Hd & He & Hc & Hq & Hquiz & _).
  - vm_compute. reflexivity.
  - reflexivity.
  - reflexivity.
  - exists data. split; [|rewrite <- Hquiz; vm_compute; reflexivity].
    assert (ttl = js "Test" /\ txt = Sample.test_text) as [-> ->].
    { assert (doc = snd Sample.test_page) as ->.
      { assert (url = JStr Sample.test_url) as ->.
        { vm_compute in Hu. injection Hu as <-. reflexivity. }
        vm_compute in Hd. injection Hd as <- _. reflexivity. }
      vm_compute in He. injection He as <- <-. split; reflexivity. }
    assert (content = Some (JStr (fenced (jsq "{'quiz':[{'answer':'B'}]}")))) as <-.
    { vm_compute in Hc. injection Hc as <- _. reflexivity. }
    exact Hq.
Defined.

(** C2 as the specification words it fails: a completion whose only
    question has the answer "E" is answered with 200, and the payload
    carries that answer. *)
Lemma quiz_answer_not_validated :
  let P := Sample.platform [Sample.test_page] in
  let W := Sample.world (fst Sample.test_page) 200
             (Sample.completion
                (jsq "```json\n{\'quiz\':[{\'question\':\'Q\',\'answer\':\'E\'}]}\n```"))
             (Some (js "secret")) in
  exists resp t p,
    handler P W Sample.test_request = (resp, t)
    /\ status resp = 200%N
    /\ payload resp = Some p
    /\ quiz_field p
       = Some (JArr [JObj {[ js "question" := JStr (js "Q");
                             js "answer" := JStr (js "E") ]}])
    /\ ~ answers_are_labels p.
Proof.
  intros P W.
  exists {| status := 200; headers := jsonHeaders;
            payload := Some (JObj
              {[ js "quiz" := JArr [JObj {[ js "question" := JStr (js "Q");
                                            js "answer" := JStr (js "E") ]}];
                 js "wikipedia_url" := JStr Sample.test_url ]}) |},
         [ wikiRequest Sample.test_url;
           aiRequest (js "secret") (js "Test") Sample.test_text ],
         (JObj
              {[ js "quiz" := JArr [JObj {[ js "question" := JStr (js "Q");
                                            js "answer" := JStr (js "E") ]}];
                 js "wikipedia_url" := JStr Sample.test_url ]}).
  split; [vm_compute; reflexivity|].
  split; [reflexivity|]. split; [reflexivity|].
  split; [vm_compute; reflexivity|].
  intros Hall.
  specialize (Hall [JObj {[ js "question" := JStr (js "Q");
                            js "answer" := JStr (js "E") ]}]
                   (JObj {[ js "question" := JStr (js "Q");
                            js "answer" := JStr (js "E") ]})).
  destruct Hall as (a & Ha & Hin).
  - vm_compute. reflexivity.
  - apply list_elem_of_singleton. reflexivity.
  - vm_compute in Ha. injection Ha as <-.
    unfold option_labels in Hin.
    repeat (apply elem_of_cons in Hin as [Hin|Hin]; [vm_compute in Hin; discriminate|]).
    apply elem_of_nil in Hin. exact Hin.
Qed.

(* ===================================================================== *)
(** ** Further behaviour of the handler *)
(* ===================================================================== *)

(** A preflight request is answered before the body is read. *)
Example options_preflight (P : Platform) (W : World) (text : jsstring) :
  handler P W {| method := js "OPTIONS"; body := text |}
  = ({| status := 200; headers := corsHeaders; payload := None |}, []).
Proof. reflexivity. Qed.

(** A body without [wikipediaUrl], and one that is not a URL. *)
Example missing_or_malformed_url :
  handler (Sample.platform []) (Sample.world [] 200 [] None)
          (Sample.post (jsq "{'url': 'https://en.wikipedia.org/wiki/Test'}"))
  = (error_response 400 (js "Wikipedia URL is required"), [])
  /\ handler (Sample.platform []) (Sample.world [] 200 [] None)
             (Sample.post (jsq "{'wikipediaUrl': 'not a url'}"))
     = (error_response 400 (js "Invalid URL format"), []).
Proof. split; vm_compute; reflexivity. Qed.

(** A completion that parses to an array is answered 200 with the array:
    the property set on it is not serialised.  One that parses to [null]
    makes the assignment throw. *)
Example completion_not_an_object :
  let P := Sample.platform [Sample.test_page] in
  let W c := Sample.world (fst Sample.test_page) 200 (Sample.completion c)
               (Some (js "secret")) in
  fst (handler P (W (js "[1, 2]")) Sample.test_request)
  = {| status := 200; headers := jsonHeaders;
       payload := Some (JArr [JNum (js "1"); JNum (js "2")]) |}
  /\ fst (handler P (W (js "null")) Sample.test_request)
     = error_response 500 (js "Cannot set properties of null").
Proof. split; vm_compute; reflexivity. Qed.

(* ===================================================================== *)
(** ** The ways out of the handler, proved *)
(* ===================================================================== *)

Section ExitPaths.

Context (P : Platform) (W : World).

(** A URL that passed the gate has the host and protocol the gate asks. *)
Lemma request_url_validated req url t :
  request_url P req = (Normal url, t) ->
  validated P url /\ ToBoolean P (Some url) = true /\ t = [].
Proof.
  intros H.
  destruct (request_url_Normal P _ _ _ H) as (m & Hbody & Hm).
  rewrite (request_url_object P _ _ _ Hbody Hm) in H.
  destruct (ToBoolean P (Some url)); [|discriminate].
  destruct (URL_parse P (ToString P url)) as [parsed|] eqn:Hparse; [|discriminate].
  destruct (endsWith (hostname parsed) (js ".wikipedia.org")) eqn:Hhost;
    [|discriminate].
  simpl in H.
  destruct (bool_decide (protocol parsed = js "http:")) eqn:Hhttp.
  - injection H as <-. apply bool_decide_eq_true_1 in Hhttp.
    repeat split; auto. exists parsed. auto.
  - destruct (bool_decide (protocol parsed = js "https:")) eqn:Hhttps;
      [|discriminate].
    injection H as <-. apply bool_decide_eq_true_1 in Hhttps.
    repeat split; auto. exists parsed. auto.
Qed.

Lemma title_nonempty doc : title P doc <> [].
Proof.
  unfold title.
  destruct (doc_querySelector doc (Simple (ById (js "firstHeading")))) as [h|];
    [|discriminate].
  cbv zeta. destruct (trim (textContent (snd h))) as [|c s]; discriminate.
Qed.

(** What extraction hands on: a title that is not empty and a text of 500
    to 15,000 code units. *)
Lemma extract_Normal doc ttl txt t :
  extract P doc = (Normal (ttl, txt), t) ->
  ttl <> [] /\ 500 <= length txt <= 15000 /\ t = [].
Proof.
  unfold extract. destruct (contentDiv doc) as [div|]; [|discriminate].
  destruct (Nat.ltb_spec (length (articleText P div)) 500) as [|Hlong];
    [discriminate|].
  intros [= <- <- <-]. split; [apply title_nonempty|].
  split; [|reflexivity]. split; [exact Hlong|].
  unfold articleText, limit_text, slice0. rewrite length_take.
  apply Nat.le_min_l.
Qed.

Lemma respond_after_completion url c :
  after_completion (fst (respond P url c)) /\ snd (respond P url c) = [].
Proof.
  destruct (respond_cases P url c) as [(d & p & _ & _ & H)|[e H]]; rewrite H;
    (split; [|reflexivity]).
  - left. eauto.
  - right; right. eauto.
Qed.

(** The pipeline leaves by one of the four ways. *)
Lemma pipeline_exit req :
  exit P W (fst (pipeline P W req)) (snd (pipeline P W req)).
Proof.
  destruct (request_url_cases P req) as [[url Hu]|[[msg Hu]|[e Hu]]].
  2:{ unfold pipeline. rewrite (bind_Returned _ _ _ _ Hu). apply exit_gate. }
  2:{ unfold pipeline. rewrite (bind_Thrown _ _ _ _ Hu). apply exit_body. }
  destruct (request_url_validated _ _ _ Hu) as (Hval & _ & _).
  destruct (fetch_document_cases P W url) as [[doc Hd]|[e Hd]].
  2:{ unfold pipeline. rewrite (bind_pure _ _ url Hu), (bind_Thrown _ _ _ _ Hd).
      apply exit_page, Hval. }
  destruct (extract_cases P doc) as [(ttl & txt & He)|[e He]].
  2:{ rewrite (pipeline_fetched P W _ _ _ _ Hu Hd). cbv zeta.
      rewrite (bind_Thrown _ _ _ _ He). apply exit_page, Hval. }
  destruct (extract_Normal _ _ _ _ He) as (Httl & Hlen & _).
  rewrite (pipeline_extracted P W _ _ _ _ _ _ Hu Hd He). cbv zeta.
  destruct (env_get W (js "LOVABLE_API_KEY")) as [key|] eqn:Hkey.
  2:{ unfold complete. rewrite Hkey. apply exit_page, Hval. }
  destruct key as [|k key].
  { unfold complete. rewrite Hkey. apply exit_page, Hval. }
  cbn [fst snd].
  rewrite respond_after_complete_trace.
  rewrite (complete_trace P W _ _ _ Hkey ltac:(discriminate)).
  apply (exit_completion P W url ttl txt (k :: key));
    [exact Hval | exact Hkey | discriminate | exact Httl | exact Hlen |].
  destruct (complete_cases P W ttl txt)
    as [(c & t & Hc)|[(st & msg & t & Hc & Hst)|(e & t & Hc)]].
  - rewrite (bind_trace _ _ c t Hc). cbn [fst].
    apply respond_after_completion.
  - rewrite (bind_Returned _ _ _ _ Hc). right; left. eauto.
  - rewrite (bind_Thrown _ _ _ _ Hc). right; right. eauto.
Qed.

End ExitPaths.

(** X1.  Whatever the request and the world, the handler answers with one
    of: the preflight answer (200, CORS headers, no body); a 200 with the
    JSON headers and a body; or an error response, a body with the single
    field [error], with status 400, 402, 429 or 500. *)
Theorem handler_response_shape (P : Platform) (W : World) (req : Request) :
  (method req = js "OPTIONS"
   /\ fst (handler P W req)
      = {| status := 200; headers := corsHeaders; payload := None |})
  \/ (exists p, fst (handler P W req)
                = {| status := 200; headers := jsonHeaders; payload := Some p |})
  \/ (exists st msg,
        fst (handler P W req)
        = {| status := st; headers := jsonHeaders;
             payload := Some (JObj {[ js "error" := JStr msg ]}) |}
        /\ (st = 400 \/ st = 402 \/ st = 429 \/ st = 500)%N).
Proof.
  destruct (decide (method req = js "OPTIONS")) as [Ho|Hm].
  { left. split; [exact Ho|]. unfold handler.
    rewrite bool_decide_eq_true_2 by exact Ho. reflexivity. }
  right. rewrite (handler_pipeline _ _ _ Hm).
  pose proof (pipeline_exit P W req) as Hexit.
  destruct (pipeline P W req) as [o t]. cbn [fst snd] in Hexit.
  inversion Hexit as [msg| e | url e Hval | url ttl txt key o' Hval Hkey Hne Httl Hlen Hafter];
    subst.
  - right. exists 400%N, msg. auto.
  - right. eexists 500%N, _. split; [reflexivity | auto].
  - right. eexists 500%N, _. split; [reflexivity | auto].
  - destruct Hafter as [[p ->]|[(st & msg & -> & Hst)|[e ->]]].
    + left. exists p. reflexivity.
    + right. exists st, msg. split; [reflexivity | destruct Hst; auto].
    + right. eexists 500%N, _. split; [reflexivity | auto].
Qed.


(** X3.  A page without [#mw-content-text .mw-parser-output] is answered
    500 with "Could not find article content"; the completion service is
    not called. *)
Theorem missing_content_rejected (P : Platform) (W : World) (req : Request)
    (url : json) (doc : document) (t : list fetch_request) :
  method req <> js "OPTIONS" ->
  request_url P req = (Normal url, []) ->
  fetch_document P W url = (Normal doc, t) ->
  contentDiv doc = None ->
  handler P W req
  = ({| status := 500; headers := jsonHeaders;
        payload :=
          Some (JObj {[ js "error" :=
            JStr (js "Could not find article content") ]}) |}, t)
  /\ t = [wikiRequest (ToString P url)].
Proof.
  intros Hmethod Hurl Hdoc Hdiv.
  rewrite (handler_pipeline _ _ _ Hmethod).
  rewrite (pipeline_fetched _ _ _ _ _ _ Hurl Hdoc). cbv zeta.
  unfold extract. rewrite Hdiv. split.
  - rewrite (bind_Thrown _ _ (ErrorObj (js "Could not find article content")) []);
      [|reflexivity].
    cbn [fst snd]. rewrite app_nil_r. reflexivity.
  - destruct (fetch_document_cases P W url) as [[d H]|[e H]];
      rewrite H in Hdoc; congruence.
Qed.

Lemma missing_content_rejected_witness :
  handler (Sample.platform [Cases.bare_page])
          (Sample.world Cases.bare_html 200 [] (Some (js "secret")))
          Sample.test_request
  = ({| status := 500; headers := jsonHeaders;
        payload :=
          Some (JObj {[ js "error" :=
            JStr (js "Could not find article content") ]}) |},
     [wikiRequest Sample.test_url]).
Proof.
  refine (proj1 (missing_content_rejected
                   (Sample.platform [Cases.bare_page])
                   (Sample.world Cases.bare_html 200 [] (Some (js "secret")))
                   Sample.test_request (JStr Sample.test_url) Cases.bare_doc
                   [wikiRequest Sample.test_url] _ _ _ _)).
  - vm_compute. discriminate.
  - vm_compute. reflexivity.
  - vm_compute. reflexivity.
  - vm_compute. reflexivity.
Defined.

(** X4.  Without the key [LOVABLE_API_KEY] in the environment, or with an
    empty one, an extracted article is answered 500 with "LOVABLE_API_KEY
    not configured" and the completion service is not called. *)
Theorem missing_api_key_rejected (P : Platform) (W : World) (req : Request)
    (url : json) (doc : document) (t : list fetch_request)
    (ttl txt : jsstring) :
  method req <> js "OPTIONS" ->
  request_url P req = (Normal url, []) ->
  fetch_document P W url = (Normal doc, t) ->
  extract P doc = (Normal (ttl, txt), []) ->
  env_get W (js "LOVABLE_API_KEY") = None
  \/ env_get W (js "LOVABLE_API_KEY") = Some [] ->
  handler P W req
  = ({| status := 500; headers := jsonHeaders;
        payload :=
          Some (JObj {[ js "error" :=
            JStr (js "LOVABLE_API_KEY not configured") ]}) |}, t).
Proof.
  intros Hmethod Hurl Hdoc Hex Hkey.
  rewrite (handler_pipeline _ _ _ Hmethod).
  rewrite (pipeline_extracted _ _ _ _ _ _ _ _ Hurl Hdoc Hex). cbv zeta.
  assert (complete P W ttl txt
          = (Thrown (ErrorObj (js "LOVABLE_API_KEY not configured")), [])) as Hc.
  { unfold complete. destruct Hkey as [-> | ->]; reflexivity. }
  rewrite (bind_Thrown _ _ _ _ Hc). cbn [fst snd]. rewrite app_nil_r. reflexivity.
Qed.

Lemma missing_api_key_rejected_witness :
  handler (Sample.platform [Sample.test_page])
          (Sample.world (fst Sample.test_page) 200 [] None)
          Sample.test_request
  = ({| status := 500; headers := jsonHeaders;
        payload :=
          Some (JObj {[ js "error" :=
            JStr (js "LOVABLE_API_KEY not configured") ]}) |},
     [wikiRequest Sample.test_url]).
Proof.
  apply (missing_api_key_rejected
           (Sample.platform [Sample.test_page])
           (Sample.world (fst Sample.test_page) 200 [] None)
           Sample.test_request (JStr Sample.test_url) (snd Sample.test_page)
           [wikiRequest Sample.test_url] (js "Test") Sample.test_text).
  - vm_compute. discriminate.
  - vm_compute. reflexivity.
  - vm_compute. reflexivity.
  - vm_compute. reflexivity.
  - left. vm_compute. reflexivity.
Defined.

(** X5.  When Wikipedia answers the GET with a status outside 200 to 299,
    the handler answers 500 with "Failed to fetch Wikipedia article" and
    makes no other call. *)
Theorem wikipedia_error_status (P : Platform) (W : World) (req : Request)
    (url : json) (r : http_response) :
  method req <> js "OPTIONS" ->
  request_url P req = (Normal url, []) ->
  fetch_answer W (wikiRequest (ToString P url)) = Resolved r ->
  ok r = false ->
  handler P W req
  = ({| status := 500; headers := jsonHeaders;
        payload :=
          Some (JObj {[ js "error" :=
            JStr (js "Failed to fetch Wikipedia article") ]}) |},
     [wikiRequest (ToString P url)]).
Proof.
  intros Hmethod Hurl Hr Hok.
  rewrite (handler_pipeline _ _ _ Hmethod). unfold pipeline.
  rewrite (bind_pure _ _ url Hurl).
  assert (fetch_document P W url
          = (Thrown (ErrorObj (js "Failed to fetch Wikipedia article")),
             [wikiRequest (ToString P url)])) as Hd.
  { unfold fetch_document, fetch. rewrite Hr. run_M. rewrite Hok. reflexivity. }
  rewrite (bind_Thrown _ _ _ _ Hd). reflexivity.
Qed.

Lemma wikipedia_error_status_witness :
  handler (Sample.platform [])
          (Cases.world_answering (Resolved {| r_status := 404; r_text := [] |}))
          Sample.test_request
  = ({| status := 500; headers := jsonHeaders;
        payload :=
          Some (JObj {[ js "error" :=
            JStr (js "Failed to fetch Wikipedia article") ]}) |},
     [wikiRequest (ToString (Sample.platform []) (JStr Sample.test_url))]).
Proof.
  apply (wikipedia_error_status (Sample.platform [])
           (Cases.world_answering (Resolved {| r_status := 404; r_text := [] |}))
           Sample.test_request (JStr Sample.test_url)
           {| r_status := 404; r_text := [] |}).
  - vm_compute. discriminate.
  - vm_compute. reflexivity.
  - reflexivity.
  - vm_compute. reflexivity.
Defined.

(** X6.  When the GET itself fails, the handler answers 500 with the
    message of what was thrown, or with "Failed to generate quiz" when
    that is not an [Error]; no other call is made. *)
Theorem wikipedia_fetch_rejected (P : Platform) (W : World) (req : Request)
    (url : json) (e : exn) :
  method req <> js "OPTIONS" ->
  request_url P req = (Normal url, []) ->
  fetch_answer W (wikiRequest (ToString P url)) = Rejected e ->
  handler P W req
  = ({| status := 500; headers := jsonHeaders;
        payload :=
          Some (JObj {[ js "error" :=
            JStr (match e with
       | ErrorObj message => message
       | NonError => js "Failed to generate quiz"
       end) ]}) |},
     [wikiRequest (ToString P url)]).
Proof.
  intros Hmethod Hurl Hr.
  rewrite (handler_pipeline _ _ _ Hmethod). unfold pipeline.
  rewrite (bind_pure _ _ url Hurl).
  assert (fetch_document P W url = (Thrown e, [wikiRequest (ToString P url)]))
    as Hd.
  { unfold fetch_document, fetch. rewrite Hr. reflexivity. }
  rewrite (bind_Thrown _ _ _ _ Hd). reflexivity.
Qed.

Lemma wikipedia_fetch_rejected_witness :
  handler (Sample.platform []) (Cases.world_answering (Rejected NonError))
          Sample.test_request
  = ({| status := 500; headers := jsonHeaders;
        payload :=
          Some (JObj {[ js "error" :=
            JStr (js "Failed to generate quiz") ]}) |},
     [wikiRequest (ToString (Sample.platform []) (JStr Sample.test_url))]).
Proof.
  apply (wikipedia_fetch_rejected (Sample.platform [])
           (Cases.world_answering (Rejected NonError))
           Sample.test_request (JStr Sample.test_url) NonError).
  - vm_compute. discriminate.
  - vm_compute. reflexivity.
  - reflexivity.
Defined.

(** X7.  When the page is fetched but the HTML parser gives no document,
    the handler answers 500 with "Failed to parse Wikipedia HTML". *)
Theorem html_parse_failure (P : Platform) (W : World) (req : Request)
    (url : json) (r : http_response) :
  method req <> js "OPTIONS" ->
  request_url P req = (Normal url, []) ->
  fetch_answer W (wikiRequest (ToString P url)) = Resolved r ->
  ok r = true ->
  DOM_parse P (r_text r) = None ->
  handler P W req
  = ({| status := 500; headers := jsonHeaders;
        payload :=
          Some (JObj {[ js "error" :=
            JStr (js "Failed to parse Wikipedia HTML") ]}) |},
     [wikiRequest (ToString P url)]).
Proof.
  intros Hmethod Hurl Hr Hok Hdom.
  rewrite (handler_pipeline _ _ _ Hmethod). unfold pipeline.
  rewrite (bind_pure _ _ url Hurl).
  assert (fetch_document P W url
          = (Thrown (ErrorObj (js "Failed to parse Wikipedia HTML")),
             [wikiRequest (ToString P url)])) as Hd.
  { unfold fetch_document, fetch. rewrite Hr. run_M. rewrite Hok, Hdom.
    reflexivity. }
  rewrite (bind_Thrown _ _ _ _ Hd). reflexivity.
Qed.

Lemma html_parse_failure_witness :
  handler (Sample.platform [])
          (Sample.world (js "<html>") 200 [] (Some (js "secret")))
          Sample.test_request
  = ({| status := 500; headers := jsonHeaders;
        payload :=
          Some (JObj {[ js "error" :=
            JStr (js "Failed to parse Wikipedia HTML") ]}) |},
     [wikiRequest (ToString (Sample.platform []) (JStr Sample.test_url))]).
Proof.
  apply (html_parse_failure (Sample.platform [])
           (Sample.world (js "<html>") 200 [] (Some (js "secret")))
           Sample.test_request (JStr Sample.test_url)
           {| r_status := 200; r_text := js "<html>" |}).
  - vm_compute. discriminate.
  - vm_compute. reflexivity.
  - vm_compute. reflexivity.
  - vm_compute. reflexivity.
  - vm_compute. reflexivity.
Defined.

(** X8.  A body that is JSON but holds no usable [wikipediaUrl] (it is
    not an object, or has no such property, or the property is falsy) is
    answered 400 with "Wikipedia URL is required"; nothing is fetched. *)
Theorem missing_url_rejected (P : Platform) (W : World) (req : Request)
    (data : json) :
  method req <> js "OPTIONS" ->
  JSON_parse (body req) = Some data ->
  data <> JNull ->
  (forall m url, data = JObj m -> m !! js "wikipediaUrl" = Some url ->
                 ToBoolean P (Some url) = false) ->
  handler P W req = ({| status := 400; headers := jsonHeaders;
                        payload :=
                          Some (JObj {[ js "error" :=
                            JStr (js "Wikipedia URL is required") ]}) |}, []).
Proof.
  intros Hmethod Hbody Hnull Hfalsy.
  rewrite (handler_pipeline _ _ _ Hmethod). unfold pipeline.
  assert (request_url P req
          = (Returned (error_response 400 (js "Wikipedia URL is required")), []))
    as Hu.
  { destruct data as [| | | | |m]; try congruence.
    1-4: unfold request_url; rewrite JSON_parse_M_cases, Hbody;
         rewrite (bind_pure _ _ _ eq_refl);
         rewrite (bind_pure _ _ None); reflexivity.
    destruct (m !! js "wikipediaUrl") as [url|] eqn:Hm.
    - rewrite (request_url_object P _ _ _ Hbody Hm).
      rewrite (Hfalsy m url eq_refl Hm). reflexivity.
    - unfold request_url. rewrite JSON_parse_M_cases, Hbody.
      rewrite (bind_pure _ _ _ eq_refl).
      rewrite (bind_pure _ _ None); [reflexivity|].
      simpl. rewrite Hm. reflexivity. }
  rewrite (bind_Returned _ _ _ _ Hu). reflexivity.
Qed.

Lemma missing_url_rejected_witness :
  handler (Sample.platform []) (Sample.world [] 200 [] None)
          (Sample.post (jsq "['https://en.wikipedia.org/wiki/Test']"))
  = ({| status := 400; headers := jsonHeaders;
        payload :=
          Some (JObj {[ js "error" :=
            JStr (js "Wikipedia URL is required") ]}) |}, []).
Proof.
  apply (missing_url_rejected (Sample.platform []) (Sample.world [] 200 [] None)
           (Sample.post (jsq "['https://en.wikipedia.org/wiki/Test']"))
           (JArr [JStr Sample.test_url])).
  - vm_compute. discriminate.
  - vm_compute. reflexivity.
  - discriminate.
  - intros m url H. discriminate H.
Defined.

(** X9.  A body that is not JSON, or is the JSON [null], is answered 500
    with the engine's message, not 400; nothing is fetched. *)
Theorem malformed_body_is_500 (P : Platform) (W : World) (req : Request) :
  method req <> js "OPTIONS" ->
  JSON_parse (body req) = None \/ JSON_parse (body req) = Some JNull ->
  handler P W req
  = ({| status := 500; headers := jsonHeaders;
        payload :=
          Some (JObj {[ js "error" :=
            JStr (fault_message P
          match JSON_parse (body req) with
          | None => BadJson (body req)
          | Some _ => CannotRead (Some JNull) (js "wikipediaUrl")
          end) ]}) |}, []).
Proof.
  intros Hmethod Hbody.
  rewrite (handler_pipeline _ _ _ Hmethod). unfold pipeline, request_url.
  rewrite JSON_parse_M_cases.
  destruct Hbody as [-> | ->]; reflexivity.
Qed.

Lemma malformed_body_is_500_witness :
  handler (Sample.platform []) (Sample.world [] 200 [] None)
          (Sample.post (js "wikipediaUrl=https://en.wikipedia.org/wiki/Test"))
  = ({| status := 500; headers := jsonHeaders;
        payload :=
          Some (JObj {[ js "error" :=
            JStr (js "Unexpected token in JSON") ]}) |}, []).
Proof.
  rewrite (malformed_body_is_500 (Sample.platform [])
             (Sample.world [] 200 [] None)
             (Sample.post (js "wikipediaUrl=https://en.wikipedia.org/wiki/Test"))).
  - vm_compute. reflexivity.
  - vm_compute. discriminate.
  - left. vm_compute. reflexivity.
Defined.



(** X11.  A completion whose message content is not a string (missing,
    [null], a number, an object, ...) is answered 500 with "Invalid JSON
    response from AI", even when it is itself a JSON value. *)
Theorem non_string_completion_rejected (P : Platform) (W : World)
    (req : Request) (url : json) (doc : document) (t t' : list fetch_request)
    (ttl txt : jsstring) (content : jsval) :
  method req <> js "OPTIONS" ->
  request_url P req = (Normal url, []) ->
  fetch_document P W url = (Normal doc, t) ->
  extract P doc = (Normal (ttl, txt), []) ->
  complete P W ttl txt = (Normal content, t') ->
  (forall s, content <> Some (JStr s)) ->
  handler P W req
  = ({| status := 500; headers := jsonHeaders;
        payload :=
          Some (JObj {[ js "error" :=
            JStr (js "Invalid JSON response from AI") ]}) |}, t ++ t').
Proof.
  intros Hmethod Hurl Hdoc Hex Hc Hnot.
  rewrite (handler_pipeline _ _ _ Hmethod).
  rewrite (pipeline_completed _ _ _ _ _ _ _ _ _ _ Hurl Hdoc Hex Hc).
  assert (quizData P content
          = (Thrown (ErrorObj (js "Invalid JSON response from AI")), [])) as Hq.
  { destruct content as [[| | |s| |]|]; try reflexivity.
    exfalso. exact (Hnot s eq_refl). }
  unfold respond. rewrite (bind_Thrown _ _ _ _ Hq). reflexivity.
Qed.

Lemma non_string_completion_rejected_witness :
  handler (Sample.platform [Sample.test_page])
          (Sample.world (fst Sample.test_page) 200
             (jsq "{'choices':[{'message':{'content':{'quiz':[]}}}]}")
             (Some (js "secret")))
          Sample.test_request
  = ({| status := 500; headers := jsonHeaders;
        payload :=
          Some (JObj {[ js "error" :=
            JStr (js "Invalid JSON response from AI") ]}) |},
     [ wikiRequest Sample.test_url ]
     ++ [ aiRequest (js "secret") (js "Test") Sample.test_text ]).
Proof.
  apply (non_string_completion_rejected
           (Sample.platform [Sample.test_page])
           (Sample.world (fst Sample.test_page) 200
              (jsq "{'choices':[{'message':{'content':{'quiz':[]}}}]}")
              (Some (js "secret")))
           Sample.test_request (JStr Sample.test_url) (snd Sample.test_page)
           [wikiRequest Sample.test_url]
           [aiRequest (js "secret") (js "Test") Sample.test_text]
           (js "Test") Sample.test_text
           (Some (JObj {[ js "quiz" := JArr [] ]}))).
  - vm_compute. discriminate.
  - vm_compute. reflexivity.
  - vm_compute. reflexivity.
  - vm_compute. reflexivity.
  - vm_compute. reflexivity.
  - intros s H. discriminate H.
Defined.

(** X12.  Whenever extraction succeeds, the title it hands on is not
    empty and the article text has between 500 and 15,000 code units. *)
Theorem extracted_text_bounds (P : Platform) (doc : document)
    (ttl txt : jsstring) (t : list fetch_request) :
  extract P doc = (Normal (ttl, txt), t) ->
  ttl <> [] /\ 500 <= length txt <= 15000.
Proof.
  intros H. destruct (extract_Normal P _ _ _ _ H) as (Httl & Hlen & _). auto.
Qed.

Lemma extracted_text_bounds_witness :
  js "Test" <> []
  /\ 500 <= length (Sample.para 8000 ++ [10; 10]%N ++ Sample.para 6998) <= 15000.
Proof.
  apply (extracted_text_bounds (Sample.platform []) (snd Sample.long_page)
           (js "Test") (Sample.para 8000 ++ [10; 10]%N ++ Sample.para 6998) []).
  vm_compute. reflexivity.
Defined.

(* ===================================================================== *)
(** ** Fences with prose around them, and the plain fence *)
(* ===================================================================== *)

Section MoreFences.

Lemma startsWith_app_inv (p s : jsstring) :
  startsWith s p = true -> exists r, s = p ++ r.
Proof.
  revert s. induction p as [|a p IH]; intros s H.
  - exists s. reflexivity.
  - apply startsWith_cons_inv in H as (s' & -> & H).
    destruct (IH _ H) as [r ->]. exists r. reflexivity.
Qed.

(** A pattern longer than the text before [x] cannot start in it unless
    it runs over into [x]. *)
Lemma startsWith_app_short (p b x : jsstring) :
  startsWith (b ++ x) p = true ->
  startsWith b p = true \/ length b < length p.
Proof.
  revert b. induction p as [|a p IH]; intros b H.
  - left. reflexivity.
  - destruct b as [|c b].
    + right. simpl. lia.
    + simpl in H. apply andb_true_iff in H as [Hac H].
      destruct (IH _ H) as [Hb|Hlen].
      * left. simpl. rewrite Hac, Hb. reflexivity.
      * right. simpl. lia.
Qed.

(** No attempt succeeds before the first backtick. *)
Lemma String_match_skip (re : fence) (pre s : jsstring) o :
  opening re = 96%N :: o -> 96%N ∉ pre ->
  String_match re (pre ++ s) = String_match re s.
Proof.
  intros Hre. induction pre as [|c pre IH]; intros Hpre; [reflexivity|].
  assert (c <> 96%N) as Hc by (intros ->; apply Hpre; left).
  assert (96%N ∉ pre) as Hpre' by (intros Hin; apply Hpre; right; exact Hin).
  change ((c :: pre) ++ s) with (c :: (pre ++ s)).
  cbn [String_match].
  assert (match_here re (c :: pre ++ s) = None) as ->.
  { unfold match_here. rewrite Hre. cbn [startsWith].
    destruct (N.eqb_spec 96 c) as [<-|]; [congruence | reflexivity]. }
  apply IH, Hpre'.
Qed.

(** The lazy group stops at the first closing fence, whatever follows. *)
Lemma lazy_until_closing_more t post :
  nl_tick_free t ->
  lazy_until fence_close (t ++ fence_close ++ post) = Some t.
Proof.
  induction t as [|c t IH]; intros H.
  - reflexivity.
  - assert (startsWith ((c :: t) ++ fence_close ++ post) fence_close = false)
      as Hno.
    { destruct (startsWith ((c :: t) ++ fence_close ++ post) fence_close) eqn:E;
        [|reflexivity].
      apply startsWith_close_inv in E as (s' & E). exfalso.
      destruct H as [H _]. injection E as -> E.
      destruct t as [|d t]; [discriminate|].
      injection E as -> _. apply H; reflexivity. }
    change (lazy_until fence_close ((c :: t) ++ fence_close ++ post))
      with (if startsWith ((c :: t) ++ fence_close ++ post) fence_close
            then Some []
            else cap ← lazy_until fence_close (t ++ fence_close ++ post);
                 Some (c :: cap)).
    rewrite Hno, (IH (nl_tick_free_tail _ _ H)). reflexivity.
Qed.

Lemma String_match_fenced_more (re : fence) t post :
  closing re = fence_close -> nl_tick_free t ->
  String_match re (opening re ++ t ++ fence_close ++ post) = Some t.
Proof.
  intros Hre H.
  assert (match_here re (opening re ++ t ++ fence_close ++ post) = Some t) as Hm.
  { unfold match_here. rewrite startsWith_app, drop_app_length, Hre.
    apply lazy_until_closing_more, H. }
  destruct (opening re ++ t ++ fence_close ++ post);
    cbn [String_match]; rewrite Hm; reflexivity.
Qed.

(** Any tail of a text the lexer accepts is accepted from some state. *)
Lemma lex_go_tail a : forall st b ts,
  lex_go st (a ++ b) = Some ts -> exists st' ts', lex_go st' b = Some ts'.
Proof.
  induction a as [|c a IH]; intros st b ts H.
  - eauto.
  - simpl in H.
    destruct (lex_step st c) as [[ts1 st1]|]; simpl in H; [|discriminate].
    destruct (lex_go st1 (a ++ b)) as [rest|] eqn:Hgo; [|discriminate].
    exact (IH _ _ _ Hgo).
Qed.

(** The opening of the json fence is never accepted: its backticks must
    be inside a string, and its line feed cannot be. *)
Lemma lex_go_json_opening st r ts :
  lex_go st (opening fence_json ++ r) = Some ts -> False.
Proof.
  change (opening fence_json ++ r)
    with (96 :: 96 :: 96 :: 106 :: 115 :: 111 :: 110 :: 10 :: r)%N.
  intros H.
  assert (exists acc, st = LString acc) as [acc ->].
  { cbn [lex_go] in H.
    destruct (lex_step st 96) as [[ts1 st1]|] eqn:Hstep; [|discriminate].
    exact (lex_step_backtick _ _ _ Hstep). }
  simpl in H. discriminate.
Qed.

Lemma JSON_parse_no_json_opening t v a b :
  JSON_parse t = Some v -> t = a ++ b ->
  startsWith b (opening fence_json) = false.
Proof.
  unfold JSON_parse, lex. intros H ->.
  destruct (lex_go LStart (a ++ b)) as [ts|] eqn:Hlex; [|discriminate].
  destruct (startsWith b (opening fence_json)) eqn:E; [|reflexivity].
  exfalso. apply startsWith_app_inv in E as [r ->].
  destruct (lex_go_tail _ _ _ _ Hlex) as (st' & ts' & Htail).
  exact (lex_go_json_opening _ _ _ Htail).
Qed.

(** The json pattern finds nothing in a text that has neither its opening
    nor a closing fence inside, even with a closing fence after it. *)
Lemma String_match_json_none b :
  nl_tick_free b ->
  (forall a c, b = a ++ c -> startsWith c (opening fence_json) = false) ->
  String_match fence_json (b ++ fence_close) = None.
Proof.
  induction b as [|x b IH]; intros Hfree Hopen.
  - vm_compute. reflexivity.
  - change ((x :: b) ++ fence_close) with (x :: (b ++ fence_close)).
    cbn [String_match].
    assert (match_here fence_json (x :: b ++ fence_close) = None) as ->.
    { unfold match_here.
      destruct (startsWith (x :: b ++ fence_close) (opening fence_json)) eqn:E;
        [|reflexivity].
      destruct (startsWith_app_short _ (x :: b) _ E) as [Hin|Hshort].
      - rewrite (Hopen [] (x :: b) eq_refl) in Hin. discriminate.
      - change (x :: b ++ fence_close) with ((x :: b) ++ fence_close).
        rewrite drop_app_ge by lia.
        change (length (opening fence_json)) with 8 in *.
        destruct (8 - length (x :: b)) as [|[|[|[|k]]]] eqn:Hk; [lia| | | |];
          change fence_close with [10; 96; 96; 96]%N; cbn [drop];
          rewrite ?drop_nil; reflexivity. }
    apply IH; [exact (nl_tick_free_tail _ _ Hfree)|].
    intros a c ->. exact (Hopen (x :: a) c eq_refl).
Qed.

End MoreFences.

(** X13.  A fenced JSON text is found with prose around it: when the
    text before the json fence holds no backtick, the parser gives the
    value of the text inside the fence, whatever follows the fence. *)
Theorem prose_around_fence (P : Platform) (pre t post : jsstring) (v : json) :
  JSON_parse t = Some v ->
  96%N ∉ pre ->
  quizData P (Some (JStr (pre ++ fenced t ++ post))) = (Normal v, []).
Proof.
  intros Hv Hpre. pose proof (JSON_parse_nl_tick_free _ _ Hv) as Hfree.
  assert (jsonText (pre ++ fenced t ++ post) = t) as Ht.
  { unfold jsonText, jsonMatch.
    rewrite (String_match_skip fence_json pre _ (js "``json" ++ [10%N]))
      by (reflexivity || exact Hpre).
    assert (fenced t ++ post = opening fence_json ++ t ++ fence_close ++ post)
      as ->.
    { unfold fenced. rewrite <- !app_assoc. reflexivity. }
    rewrite String_match_fenced_more; auto. }
  rewrite quizData_string, Ht, Hv. reflexivity.
Qed.

Lemma prose_around_fence_witness :
  quizData (Sample.platform [])
    (Some (JStr (js "Here is your quiz: " ++ fenced (jsq "{'quiz': []}")
                 ++ js " Enjoy!")))
  = (Normal (JObj {[ js "quiz" := JArr [] ]}), []).
Proof.
  apply (prose_around_fence (Sample.platform []) (js "Here is your quiz: ")
           (jsq "{'quiz': []}") (js " Enjoy!")).
  - vm_compute. reflexivity.
  - intros H. vm_compute in H.
    repeat (apply elem_of_cons in H as [H|H]; [discriminate|]).
    apply elem_of_nil in H. exact H.
Defined.

(** X14.  The fence without a language tag works as well: on
    "```\n" + t + "\n```", for a text [t] that [JSON.parse] accepts, the
    parser gives the value of [t]. *)
Theorem plain_fence_parse (P : Platform) (t : jsstring) (v : json) :
  JSON_parse t = Some v ->
  quizData P (Some (JStr (js "```" ++ [10%N] ++ t ++ [10%N] ++ js "```")))
  = (Normal v, []).
Proof.
  intros Hv. pose proof (JSON_parse_nl_tick_free _ _ Hv) as Hfree.
  assert (jsonText (js "```" ++ [10%N] ++ t ++ [10%N] ++ js "```") = t) as Ht.
  { unfold jsonText, jsonMatch.
    assert (String_match fence_json
              (js "```" ++ [10%N] ++ t ++ [10%N] ++ js "```") = None) as ->.
    { change (js "```" ++ [10%N] ++ t ++ [10%N] ++ js "```")
        with (96 :: 96 :: 96 :: 10 :: (t ++ fence_close))%N.
      do 4 (cbn [String_match];
            match goal with
            | |- context [match_here fence_json ?s] =>
                change (match_here fence_json s) with (@None jsstring)
            end).
      apply String_match_json_none; [exact Hfree|].
      intros a c. exact (JSON_parse_no_json_opening _ _ _ _ Hv). }
    change (js "```" ++ [10%N] ++ t ++ [10%N] ++ js "```")
      with (opening fence_plain ++ t ++ fence_close).
    rewrite String_match_fenced; auto. }
  rewrite quizData_string, Ht, Hv. reflexivity.
Qed.

Lemma plain_fence_parse_witness :
  quizData (Sample.platform [])
    (Some (JStr (js "```" ++ [10%N] ++ jsq "{'quiz': []}" ++ [10%N] ++ js "```")))
  = (Normal (JObj {[ js "quiz" := JArr [] ]}), []).
Proof.
  apply (plain_fence_parse (Sample.platform []) (jsq "{'quiz': []}")).
  vm_compute. reflexivity.
Defined.

(* ===================================================================== *)
(** ** The quiz generator form, proved *)
(* ===================================================================== *)

Section GeneratorFacts.

Context (P : Platform) (B : Generator.Backend).

Lemma Gbind_pure {A C} (m : Generator.G A) (k : A -> Generator.G C) a :
  m = (inr a, []) -> (m ≫= k) = k a.
Proof.
  intros ->. unfold mbind, Generator.G_bind, Generator.Gbind.
  destruct (k a); reflexivity.
Qed.

Lemma Gbind_throw {A C} (m : Generator.G A) (k : A -> Generator.G C) e t :
  m = (inl e, t) -> (m ≫= k) = (inl e, t).
Proof. intros ->. reflexivity. Qed.

Lemma Gbind_emit {C} (e : Generator.effect) (k : Generator.G C) :
  (Generator.emit e ≫= fun _ => k) = (fst k, e :: snd k).
Proof.
  unfold mbind, Generator.G_bind, Generator.Gbind, Generator.emit.
  destruct k; reflexivity.
Qed.

(** Reading a property has no effect. *)
Lemma read_cases v name :
  (exists x, Generator.read P v name = (inr x, []))
  \/ (exists e, Generator.read P v name = (inl e, [])).
Proof. destruct v as [[]|]; simpl; eauto. Qed.

Lemma read_object m name :
  Generator.read P (Some (JObj m)) name = (inr (m !! name), []).
Proof. reflexivity. Qed.

(** The callback numbers its row with the index it is given, and copies
    [answer] into [correct_answer]. *)
Lemma question_row_of_cases quiz q index :
  (exists r a, Generator.question_row_of P quiz q index = (inr (r, index), [])
               /\ Generator.read P (Some q) (js "answer") = (inr a, [])
               /\ (js "correct_answer", a) ∈ r)
  \/ (exists e, Generator.question_row_of P quiz q index = (inl e, [])).
Proof.
  unfold Generator.question_row_of.
  destruct (read_cases (Some quiz) (js "id")) as [[x1 H1]|[e H1]];
    [rewrite (Gbind_pure _ _ _ H1) | rewrite (Gbind_throw _ _ _ _ H1); eauto].
  destruct (read_cases (Some q) (js "question")) as [[x2 H2]|[e H2]];
    [rewrite (Gbind_pure _ _ _ H2) | rewrite (Gbind_throw _ _ _ _ H2); eauto].
  destruct (read_cases (Some q) (js "options")) as [[x3 H3]|[e H3]];
    [rewrite (Gbind_pure _ _ _ H3) | rewrite (Gbind_throw _ _ _ _ H3); eauto].
  destruct (read_cases (Some q) (js "answer")) as [[x4 H4]|[e H4]];
    [rewrite (Gbind_pure _ _ _ H4) | rewrite (Gbind_throw _ _ _ _ H4); eauto].
  destruct (read_cases (Some q) (js "difficulty")) as [[x5 H5]|[e H5]];
    [rewrite (Gbind_pure _ _ _ H5) | rewrite (Gbind_throw _ _ _ _ H5); eauto].
  destruct (read_cases (Some q) (js "explanation")) as [[x6 H6]|[e H6]];
    [rewrite (Gbind_pure _ _ _ H6) | rewrite (Gbind_throw _ _ _ _ H6); eauto].
  left. eexists _, x4. split; [reflexivity|]. split; [exact H4|].
  do 3 right. left.
Qed.

Lemma question_rows_from_cases quiz qs : forall index,
  (exists rows, Generator.question_rows_from P quiz index qs = (inr rows, [])
     /\ snd <$> rows = seq index (length qs)
     /\ forall k q, qs !! k = Some q ->
          exists r a, rows !! k = Some (r, index + k)
                      /\ Generator.read P (Some q) (js "answer") = (inr a, [])
                      /\ (js "correct_answer", a) ∈ r)
  \/ (exists e, Generator.question_rows_from P quiz index qs = (inl e, [])).
Proof.
  induction qs as [|q qs IH]; intros index.
  - left. exists []. split; [reflexivity|]. split; [reflexivity|].
    intros k q' H. discriminate H.
  - cbn [Generator.question_rows_from].
    destruct (question_row_of_cases quiz q index)
      as [(r & a & Hr & Ha & Hin)|[e Hr]];
      [rewrite (Gbind_pure _ _ _ Hr) | rewrite (Gbind_throw _ _ _ _ Hr); eauto].
    destruct (IH (S index)) as [(rows & Hrows & Hseq & Hk)|[e Hrows]];
      [rewrite (Gbind_pure _ _ _ Hrows) | rewrite (Gbind_throw _ _ _ _ Hrows); eauto].
    left. exists ((r, index) :: rows). split; [reflexivity|].
    split; [cbn; rewrite Hseq; reflexivity|].
    intros [|k] q' Hq'.
    + injection Hq' as <-. exists r, a. rewrite Nat.add_0_r. auto.
    + destruct (Hk k q' Hq') as (r' & a' & H1 & H2 & H3).
      exists r', a'. replace (index + S k) with (S index + k) by lia. auto.
Qed.

Lemma question_rows_cases quiz quizData :
  (exists l rows,
     quiz_field quizData = Some (JArr l)
     /\ Generator.question_rows P quiz quizData = (inr rows, [])
     /\ snd <$> rows = seq 0 (length l)
     /\ forall k q, l !! k = Some q ->
          exists r a, rows !! k = Some (r, k)
                      /\ Generator.read P (Some q) (js "answer") = (inr a, [])
                      /\ (js "correct_answer", a) ∈ r)
  \/ (exists e, Generator.question_rows P quiz quizData = (inl e, [])
                /\ forall l, quiz_field quizData = Some (JArr l) ->
                             exists q, q ∈ l).
Proof.
  unfold Generator.question_rows.
  destruct quizData as [| | | | |m];
    try (right; eexists; split; [reflexivity | intros l H; discriminate H]).
  rewrite (Gbind_pure _ _ _ (read_object m (js "quiz"))). cbn [quiz_field].
  destruct (m !! js "quiz") as [[| | | |l|]|];
    try (right; eexists; split; [reflexivity | intros l' H; discriminate H]).
  destruct (question_rows_from_cases quiz l 0) as [(rows & H & Hseq & Hk)|[e H]].
  - left. exists l, rows. auto.
  - right. exists e. split; [exact H|]. intros l' [= <-].
    destruct l as [|q l]; [discriminate H|]. exists q. left.
Qed.

(** How [generate] can end, with the effects it had. *)
Lemma generate_cases url :
  let call := Generator.Invoke (js "generate-quiz")
                (JObj {[ js "wikipediaUrl" := JStr url ]}) in
  (exists e, Generator.generate P B url = (inl e, [call]))
  \/ (exists e r, Generator.generate P B url
                  = (inl e, [call; Generator.InsertQuiz r]))
  \/ (exists e r rows,
        Generator.generate P B url
        = (inl e, [call; Generator.InsertQuiz r; Generator.InsertQuestions rows])
        /\ Generator.insert_questions B rows = Some e)
  \/ (exists e r rows,
        Generator.generate P B url
        = (inl e, [call; Generator.InsertQuiz r; Generator.InsertQuestions rows;
                   Generator.ToastSuccess (js "Quiz generated successfully!")])
        /\ Generator.insert_questions B rows = None)
  \/ (exists r rows id,
        Generator.generate P B url
        = (inr tt, [call; Generator.InsertQuiz r; Generator.InsertQuestions rows;
                    Generator.ToastSuccess (js "Quiz generated successfully!");
                    Generator.OnQuizGenerated id; Generator.SetUrl []])
        /\ Generator.insert_questions B rows = None).
Proof.
  intros call. unfold Generator.generate. fold call.
  rewrite Gbind_emit.
  destruct (Generator.invoke B (js "generate-quiz")
              (JObj {[ js "wikipediaUrl" := JStr url ]})) as [e|quizData];
    [left; eauto|].
  destruct (read_cases (Some quizData) (js "title")) as [[x1 H1]|[e H1]];
    [rewrite (Gbind_pure _ _ _ H1) | rewrite (Gbind_throw _ _ _ _ H1); left; eauto].
  destruct (read_cases (Some quizData) (js "summary")) as [[x2 H2]|[e H2]];
    [rewrite (Gbind_pure _ _ _ H2) | rewrite (Gbind_throw _ _ _ _ H2); left; eauto].
  destruct (read_cases (Some quizData) (js "wikipedia_url")) as [[x3 H3]|[e H3]];
    [rewrite (Gbind_pure _ _ _ H3) | rewrite (Gbind_throw _ _ _ _ H3); left; eauto].
  destruct (read_cases (Some quizData) (js "key_entities")) as [[x4 H4]|[e H4]];
    [rewrite (Gbind_pure _ _ _ H4) | rewrite (Gbind_throw _ _ _ _ H4); left; eauto].
  destruct (read_cases (Some quizData) (js "sections")) as [[x5 H5]|[e H5]];
    [rewrite (Gbind_pure _ _ _ H5) | rewrite (Gbind_throw _ _ _ _ H5); left; eauto].
  destruct (read_cases (Some quizData) (js "related_topics")) as [[x6 H6]|[e H6]];
    [rewrite (Gbind_pure _ _ _ H6) | rewrite (Gbind_throw _ _ _ _ H6); left; eauto].
  cbv zeta. rewrite Gbind_emit.
  destruct (Generator.insert_quiz B _) as [e|quiz]; [right; left; eauto|].
  destruct (question_rows_cases quiz quizData)
    as [(l & rows & _ & Hrows & _)|(e & Hrows & _)];
    [rewrite (Gbind_pure _ _ _ Hrows)
    | rewrite (Gbind_throw _ _ _ _ Hrows); right; left; eauto].
  rewrite Gbind_emit.
  destruct (Generator.insert_questions B rows) as [e|] eqn:Hins;
    [right; right; left; eauto 10|].
  rewrite Gbind_emit.
  destruct (read_cases (Some quiz) (js "id")) as [[id Hid]|[e Hid]].
  - rewrite (Gbind_pure _ _ _ Hid), Gbind_emit.
    do 4 right. eexists _, rows, id. split; [reflexivity | exact Hins].
  - rewrite (Gbind_throw _ _ _ _ Hid).
    do 3 right. left. eexists e, _, rows. split; [reflexivity | exact Hins].
Qed.

(** The rows are in the order of their numbers, which are all different. *)
Lemma numbered_sorted (rows : list Generator.question_row) : forall i n,
  snd <$> rows = seq i n -> Sorted (fun a b => snd a <= snd b) rows.
Proof.
  induction rows as [|r rows IH]; intros i n H; [constructor|].
  destruct n as [|n]; [discriminate|]. injection H as Hr Hrows.
  constructor; [exact (IH _ _ Hrows)|].
  destruct rows as [|r' rows]; [constructor|].
  destruct n as [|n]; [discriminate|]. injection Hrows as Hr' _.
  constructor. lia.
Qed.

Lemma numbered_inj (rows : list Generator.question_row) : forall i n x y,
  snd <$> rows = seq i n -> x ∈ rows -> y ∈ rows -> snd x = snd y -> x = y.
Proof.
  induction rows as [|r rows IH]; intros i n x y H Hx Hy Hxy.
  - apply elem_of_nil in Hx. contradiction.
  - destruct n as [|n]; [discriminate|]. injection H as Hr Hrows.
    assert (forall z, z ∈ rows -> S i <= snd z) as Hge.
    { intros z Hz. assert (snd z ∈ seq (S i) n) as Hin.
      { rewrite <- Hrows. apply list_elem_of_fmap. eauto. }
      apply elem_of_seq in Hin. lia. }
    apply elem_of_cons in Hx as [->|Hx]; apply elem_of_cons in Hy as [->|Hy].
    + reflexivity.
    + specialize (Hge _ Hy). lia.
    + specialize (Hge _ Hx). lia.
    + exact (IH _ _ _ _ Hrows Hx Hy Hxy).
Qed.

End GeneratorFacts.

(** Membership in an explicit list, case by case. *)
Ltac elem_cases H :=
  repeat (apply elem_of_cons in H as [H|H]; [try discriminate H|]);
  try (apply elem_of_nil in H; contradiction).

(** X15.  The check of the form and the gate of the handler agree: for a
    body that carries the non-empty string [url] as [wikipediaUrl], the
    URL passes the client-side refinement exactly when the handler's gate
    lets it through. *)
Theorem client_gate_matches_server (P : Platform) (req : Request)
    (m : gmap jsstring json) (url : jsstring) :
  JSON_parse (body req) = Some (JObj m) ->
  m !! js "wikipediaUrl" = Some (JStr url) ->
  url <> [] ->
  Generator.is_wikipedia_url P url = true
  <-> request_url P req = (Normal (JStr url), []).
Proof.
  intros Hbody Hm Hne.
  rewrite (request_url_object P _ _ _ Hbody Hm).
  assert (ToBoolean P (Some (JStr url)) = true) as ->.
  { simpl. rewrite bool_decide_eq_false_2 by exact Hne. reflexivity. }
  unfold Generator.is_wikipedia_url. cbn [negb ToString].
  destruct (URL_parse P url) as [parsed|]; [|split; discriminate].
  destruct (endsWith (hostname parsed) (js ".wikipedia.org"));
    destruct (bool_decide (protocol parsed = js "http:"));
    destruct (bool_decide (protocol parsed = js "https:"));
    cbn; split; (discriminate || reflexivity).
Qed.

Lemma client_gate_matches_server_witness :
  Generator.is_wikipedia_url (Sample.platform []) Sample.test_url = true
  <-> request_url (Sample.platform []) Sample.test_request
      = (Normal (JStr Sample.test_url), []).
Proof.
  apply (client_gate_matches_server (Sample.platform []) Sample.test_request
           {[ js "wikipediaUrl" := JStr Sample.test_url ]} Sample.test_url).
  - vm_compute. reflexivity.
  - vm_compute. reflexivity.
  - vm_compute. discriminate.
Defined.

(** X16.  The form calls the edge function only for a URL that is not
    blank and passes both checks of the schema, and then it calls
    "generate-quiz" with the body {wikipediaUrl: url}, the URL as typed. *)
Theorem invoke_only_for_wikipedia_url (P : Platform) (B : Generator.Backend)
    (url name : jsstring) (body : json) :
  Generator.Invoke name body ∈ Generator.handleGenerate P B url ->
  trim url <> []
  /\ Generator.zod_url B url = true
  /\ Generator.is_wikipedia_url P url = true
  /\ name = js "generate-quiz"
  /\ body = JObj {[ js "wikipediaUrl" := JStr url ]}.
Proof.
  unfold Generator.handleGenerate. intros H.
  destruct (bool_decide (trim url = [])) eqn:Hblank; [elem_cases H|].
  apply bool_decide_eq_false_1 in Hblank.
  unfold Generator.wikiUrlSchema in H.
  destruct (Generator.zod_url B url); [|elem_cases H].
  destruct (Generator.is_wikipedia_url P url); [|elem_cases H].
  cbn [negb] in H.
  assert (name = js "generate-quiz"
          /\ body = JObj {[ js "wikipediaUrl" := JStr url ]}) as [-> ->];
    [|repeat split; auto].
  destruct (generate_cases P B url)
    as [(e & Hg)|[(e & r & Hg)|[(e & r & rows & Hg & _)
       |[(e & r & rows & Hg & _)|(r & rows & id & Hg & _)]]]];
    rewrite Hg in H; cbn [app] in H; elem_cases H;
    injection H as -> ->; auto.
Qed.

Lemma invoke_only_for_wikipedia_url_witness :
  trim Sample.test_url <> []
  /\ Generator.zod_url (Cases.backend Cases.quiz_payload Cases.quiz_record None)
       Sample.test_url = true
  /\ Generator.is_wikipedia_url (Sample.platform []) Sample.test_url = true
  /\ js "generate-quiz" = js "generate-quiz"
  /\ JObj {[ js "wikipediaUrl" := JStr Sample.test_url ]}
     = JObj {[ js "wikipediaUrl" := JStr Sample.test_url ]}.
Proof.
  apply (invoke_only_for_wikipedia_url (Sample.platform [])
           (Cases.backend Cases.quiz_payload Cases.quiz_record None)
           Sample.test_url).
  assert (Generator.handleGenerate (Sample.platform [])
            (Cases.backend Cases.quiz_payload Cases.quiz_record None)
            Sample.test_url
          = Generator.SetIsGenerating true
            :: Generator.Invoke (js "generate-quiz")
                 (JObj {[ js "wikipediaUrl" := JStr Sample.test_url ]})
            :: drop 2 (Generator.handleGenerate (Sample.platform [])
                         (Cases.backend Cases.quiz_payload Cases.quiz_record None)
                         Sample.test_url)) as ->.
  { vm_compute. reflexivity. }
  right. left.
Defined.

(** X17.  Whatever happens, the form is left not generating; and the URL
    field is cleared exactly when the page was told of a new quiz,
    otherwise it keeps what was typed. *)
Theorem generate_leaves_form (P : Platform) (B : Generator.Backend)
    (s : Generator.state) :
  Generator.isGenerating s = false ->
  let effects := Generator.handleGenerate P B (Generator.url s) in
  Generator.isGenerating (Generator.after s effects) = false
  /\ Generator.url (Generator.after s effects)
     = (if existsb Generator.is_generated effects then [] else Generator.url s).
Proof.
  intros Hidle. destruct s as [url g]. cbn in Hidle. subst g. cbn [Generator.url].
  unfold Generator.handleGenerate.
  destruct (bool_decide (trim url = [])); [split; reflexivity|].
  destruct (Generator.wikiUrlSchema P B url); [split; reflexivity|].
  destruct (generate_cases P B url)
    as [(e & Hg)|[(e & r & Hg)|[(e & r & rows & Hg & _)
       |[(e & r & rows & Hg & _)|(r & rows & id & Hg & _)]]]];
    rewrite Hg; split; reflexivity.
Qed.

Lemma generate_leaves_form_witness :
  let s := {| Generator.url := Sample.test_url; Generator.isGenerating := false |} in
  let effects :=
    Generator.handleGenerate (Sample.platform [])
      (Cases.backend Cases.quiz_payload Cases.quiz_record None)
      (Generator.url s) in
  Generator.isGenerating (Generator.after s effects) = false
  /\ Generator.url (Generator.after s effects)
     = (if existsb Generator.is_generated effects then [] else Generator.url s).
Proof.
  apply (generate_leaves_form (Sample.platform [])
           (Cases.backend Cases.quiz_payload Cases.quiz_record None)
           {| Generator.url := Sample.test_url; Generator.isGenerating := false |}).
  reflexivity.
Defined.

(** X18.  The rows built from the payload follow its [quiz] array: there
    is one row per question, the row of the question at index k carries
    [question_order] k, and its [correct_answer] is the [answer] of that
    question. *)
Theorem question_rows_numbered (P : Platform) (quiz quizData : json)
    (rows : list Generator.question_row) (effects : list Generator.effect) :
  Generator.question_rows P quiz quizData = (inr rows, effects) ->
  exists l,
    quiz_field quizData = Some (JArr l)
    /\ length rows = length l
    /\ forall k q, l !! k = Some q ->
         exists r a, rows !! k = Some (r, k)
                     /\ Generator.read P (Some q) (js "answer") = (inr a, [])
                     /\ (js "correct_answer", a) ∈ r.
Proof.
  intros H.
  destruct (question_rows_cases P quiz quizData)
    as [(l & rows' & Hq & Hrows & Hseq & Hk)|(e & Hrows & _)];
    rewrite Hrows in H; [|discriminate].
  injection H as <- _. exists l. split; [exact Hq|]. split; [|exact Hk].
  rewrite <- (length_fmap snd rows'), Hseq. apply length_seq.
Qed.

Lemma question_rows_numbered_witness :
  exists l,
    quiz_field Cases.quiz_payload = Some (JArr l)
    /\ length Cases.quiz_rows = length l
    /\ forall k q, l !! k = Some q ->
         exists r a, Cases.quiz_rows !! k = Some (r, k)
                     /\ Generator.read (Sample.platform []) (Some q) (js "answer")
                        = (inr a, [])
                     /\ (js "correct_answer", a) ∈ r.
Proof.
  apply (question_rows_numbered (Sample.platform []) Cases.quiz_record
           Cases.quiz_payload Cases.quiz_rows []).
  vm_compute. reflexivity.
Defined.

(** X19.  Ordering by [question_order] restores the quiz: whatever order
    the stored rows come back in, once sorted by [question_order] they are
    the rows in the order of the payload's [quiz] array. *)
Theorem question_order_restores_quiz (P : Platform) (quiz quizData : json)
    (rows stored : list Generator.question_row)
    (effects : list Generator.effect) :
  Generator.question_rows P quiz quizData = (inr rows, effects) ->
  stored ≡ₚ rows ->
  Sorted (fun a b => snd a <= snd b) stored ->
  stored = rows.
Proof.
  intros H Hperm Hsorted.
  destruct (question_rows_cases P quiz quizData)
    as [(l & rows' & Hq & Hrows & Hseq & Hk)|(e & Hrows & _)];
    rewrite Hrows in H; [|discriminate].
  injection H as <- _.
  assert (Transitive (fun a b : Generator.question_row => snd a <= snd b))
    as Htrans by (intros a b c; cbn; lia).
  apply (Sorted_unique_strong (fun a b => snd a <= snd b)); auto.
  - intros x y Hx Hy Hxy Hyx. rewrite Hperm in Hx.
    apply (numbered_inj rows' _ _ _ _ Hseq Hx Hy). lia.
  - exact (numbered_sorted _ _ _ Hseq).
Qed.

Lemma question_order_restores_quiz_witness :
  [ Cases.question_row (js "Q1") (js "B") 0;
    Cases.question_row (js "Q2") (js "D") 1 ]
  = Cases.quiz_rows.
Proof.
  apply (question_order_restores_quiz (Sample.platform []) Cases.quiz_record
           Cases.quiz_payload Cases.quiz_rows _ []).
  - vm_compute. reflexivity.
  - reflexivity.
  - repeat constructor.
Defined.

(** X20.  When the insert of the questions is refused, the quiz row has
    already been inserted and nothing removes it; the page is not told of
    a quiz, the error is shown, and the form stops generating. *)
Theorem refused_questions_leave_quiz (P : Platform) (B : Generator.Backend)
    (url : jsstring) (rows : list Generator.question_row) (err : exn) :
  Generator.InsertQuestions rows ∈ Generator.handleGenerate P B url ->
  Generator.insert_questions B rows = Some err ->
  exists r,
    Generator.handleGenerate P B url
    = [ Generator.SetIsGenerating true;
        Generator.Invoke (js "generate-quiz")
          (JObj {[ js "wikipediaUrl" := JStr url ]});
        Generator.InsertQuiz r;
        Generator.InsertQuestions rows;
        Generator.ToastError
          match err with
          | ErrorObj [] | NonError =>
              js "Failed to generate quiz. Please try again."
          | ErrorObj message => message
          end;
        Generator.SetIsGenerating false ].
Proof.
  unfold Generator.handleGenerate. intros H Herr.
  destruct (bool_decide (trim url = [])); [elem_cases H|].
  destruct (Generator.wikiUrlSchema P B url); [elem_cases H|].
  destruct (generate_cases P B url)
    as [(e & Hg)|[(e & r & Hg)|[(e & r & rows' & Hg & Hins)
       |[(e & r & rows' & Hg & Hins)|(r & rows' & id & Hg & Hins)]]]];
    rewrite Hg in H |- *; cbn [app] in H; elem_cases H;
    injection H as ->; rewrite Herr in Hins; [|discriminate..].
  injection Hins as <-. exists r. destruct err as [[|c message]|]; reflexivity.
Qed.

Lemma refused_questions_leave_quiz_witness :
  exists r,
    Generator.handleGenerate (Sample.platform [])
      (Cases.backend Cases.quiz_payload Cases.quiz_record
         (Some (ErrorObj (js "violates check constraint"))))
      Sample.test_url
    = [ Generator.SetIsGenerating true;
        Generator.Invoke (js "generate-quiz")
          (JObj {[ js "wikipediaUrl" := JStr Sample.test_url ]});
        Generator.InsertQuiz r;
        Generator.InsertQuestions Cases.quiz_rows;
        Generator.ToastError (js "violates check constraint");
        Generator.SetIsGenerating false ].
Proof.
  apply (refused_questions_leave_quiz (Sample.platform [])
           (Cases.backend Cases.quiz_payload Cases.quiz_record
              (Some (ErrorObj (js "violates check constraint"))))
           Sample.test_url Cases.quiz_rows
           (ErrorObj (js "violates check constraint"))).
  - assert (Generator.handleGenerate (Sample.platform [])
              (Cases.backend Cases.quiz_payload Cases.quiz_record
                 (Some (ErrorObj (js "violates check constraint"))))
              Sample.test_url
            = take 3 (Generator.handleGenerate (Sample.platform [])
                        (Cases.backend Cases.quiz_payload Cases.quiz_record
                           (Some (ErrorObj (js "violates check constraint"))))
                        Sample.test_url)
              ++ Generator.InsertQuestions Cases.quiz_rows
              :: drop 4 (Generator.handleGenerate (Sample.platform [])
                           (Cases.backend Cases.quiz_payload Cases.quiz_record
                              (Some (ErrorObj (js "violates check constraint"))))
                           Sample.test_url)) as ->.
    { vm_compute. reflexivity. }
    apply elem_of_app. right. left.
  - reflexivity.
Defined.

(** X21.  A payload whose [quiz] is not an array (the handler does not
    check it) still gets its quiz row inserted; building the questions
    then throws, so the quiz is left without questions, the page is not
    told of it and an error is shown. *)
Theorem payload_without_quiz_array (P : Platform) (B : Generator.Backend)
    (url : jsstring) (m : gmap jsstring json) (quiz : json) :
  trim url <> [] ->
  Generator.wikiUrlSchema P B url = None ->
  Generator.invoke B (js "generate-quiz")
    (JObj {[ js "wikipediaUrl" := JStr url ]}) = inr (JObj m) ->
  (forall l, m !! js "quiz" <> Some (JArr l)) ->
  Generator.insert_quiz B
    [ (js "title", m !! js "title"); (js "summary", m !! js "summary");
      (js "wikipedia_url", m !! js "wikipedia_url");
      (js "key_entities", m !! js "key_entities");
      (js "sections", m !! js "sections");
      (js "related_topics", m !! js "related_topics") ] = inr quiz ->
  exists msg,
    Generator.handleGenerate P B url
    = [ Generator.SetIsGenerating true;
        Generator.Invoke (js "generate-quiz")
          (JObj {[ js "wikipediaUrl" := JStr url ]});
        Generator.InsertQuiz
          [ (js "title", m !! js "title"); (js "summary", m !! js "summary");
            (js "wikipedia_url", m !! js "wikipedia_url");
            (js "key_entities", m !! js "key_entities");
            (js "sections", m !! js "sections");
            (js "related_topics", m !! js "related_topics") ];
        Generator.ToastError msg;
        Generator.SetIsGenerating false ].
Proof.
  intros Hblank Hschema Hinvoke Hquiz Hinsert.
  unfold Generator.handleGenerate.
  rewrite bool_decide_eq_false_2 by exact Hblank. rewrite Hschema.
  assert (exists e,
    Generator.generate P B url
    = (inl e,
       [ Generator.Invoke (js "generate-quiz")
           (JObj {[ js "wikipediaUrl" := JStr url ]});
         Generator.InsertQuiz
           [ (js "title", m !! js "title"); (js "summary", m !! js "summary");
             (js "wikipedia_url", m !! js "wikipedia_url");
             (js "key_entities", m !! js "key_entities");
             (js "sections", m !! js "sections");
             (js "related_topics", m !! js "related_topics") ] ])) as [e ->].
  { unfold Generator.generate. rewrite Gbind_emit, Hinvoke.
    rewrite !(Gbind_pure _ _ _ (read_object P m _)). cbv zeta.
    rewrite Gbind_emit, Hinsert.
    unfold Generator.question_rows.
    rewrite (Gbind_pure _ _ _ (read_object P m _)).
    destruct (m !! js "quiz") as [[| | | |l|]|] eqn:Hq;
      try (eexists; reflexivity).
    exfalso. exact (Hquiz l eq_refl). }
  eexists. reflexivity.
Qed.

Lemma payload_without_quiz_array_witness :
  exists msg,
    Generator.handleGenerate (Sample.platform [])
      (Cases.backend (JObj {[ js "title" := JStr (js "Test") ]})
         Cases.quiz_record None)
      Sample.test_url
    = [ Generator.SetIsGenerating true;
        Generator.Invoke (js "generate-quiz")
          (JObj {[ js "wikipediaUrl" := JStr Sample.test_url ]});
        Generator.InsertQuiz
          [ (js "title", ({[ js "title" := JStr (js "Test") ]} : gmap jsstring json)
                         !! js "title");
            (js "summary", ({[ js "title" := JStr (js "Test") ]} : gmap jsstring json)
                           !! js "summary");
            (js "wikipedia_url",
             ({[ js "title" := JStr (js "Test") ]} : gmap jsstring json)
             !! js "wikipedia_url");
            (js "key_entities",
             ({[ js "title" := JStr (js "Test") ]} : gmap jsstring json)
             !! js "key_entities");
            (js "sections", ({[ js "title" := JStr (js "Test") ]} : gmap jsstring json)
                            !! js "sections");
            (js "related_topics",
             ({[ js "title" := JStr (js "Test") ]} : gmap jsstring json)
             !! js "related_topics") ];
        Generator.ToastError msg;
        Generator.SetIsGenerating false ].
Proof.
  apply (payload_without_quiz_array (Sample.platform [])
           (Cases.backend (JObj {[ js "title" := JStr (js "Test") ]})
              Cases.quiz_record None)
           Sample.test_url {[ js "title" := JStr (js "Test") ]}
           Cases.quiz_record).
  - vm_compute. discriminate.
  - vm_compute. reflexivity.
  - reflexivity.
  - intros l H. vm_compute in H. discriminate H.
  - reflexivity.
Defined.

(* ===================================================================== *)
(** ** The quiz display, proved *)
(* ===================================================================== *)

Section DisplayFacts.

Lemma getOptionLabel_label index l :
  Display.getOptionLabel index = Some l -> l ∈ option_labels.
Proof.
  unfold Display.getOptionLabel, option_labels. intros H.
  apply list_elem_of_lookup. eauto.
Qed.

(** What a click on an option does when there is a current question. *)
Lemma handleAnswerSelect_fresh s q answer :
  Display.isAnswered s = false ->
  Display.questions s !! Display.currentQuestionIndex s = Some q ->
  Display.handleAnswerSelect s answer
  = Display.Done
      {| Display.questions := Display.questions s;
         Display.currentQuestionIndex := Display.currentQuestionIndex s;
         Display.selectedAnswer := Some answer;
         Display.isAnswered := true;
         Display.score :=
           Display.score s
           + (if bool_decide (answer = Some (Display.correct_answer q))
              then 1 else 0);
         Display.isComplete := Display.isComplete s |}.
Proof.
  intros Hfresh Hq. unfold Display.handleAnswerSelect. rewrite Hfresh, Hq.
  destruct (bool_decide (answer = Some (Display.correct_answer q)));
    [reflexivity | rewrite Nat.add_0_r; reflexivity].
Qed.

(** The facts every reachable state keeps. *)
Lemma reachable_invariant qs s effects :
  Display.reachable qs s effects ->
  Display.questions s = qs
  /\ (qs <> [] -> Display.currentQuestionIndex s < length qs)
  /\ Display.score s
     <= Display.currentQuestionIndex s + (if Display.isAnswered s then 1 else 0)
  /\ Display.score s <= length qs
  /\ effects = (if Display.isComplete s
                then snd (Display.completeQuiz s) else []).
Proof.
  induction 1 as [|s effects e s' effects' Hreach IH Hen Hstep
                  |s effects index s' Hreach IH Hen Hthrow].
  - cbn. repeat split; auto; try lia.
    intros Hne. destruct qs; [congruence | cbn; lia].
  - destruct IH as (Hqs & Hidx & Hscore & _ & Heff).
    destruct Hen as (Hne & Hcomplete & Hen). rewrite Hcomplete in Heff. subst effects.
    rewrite Hqs in Hne. specialize (Hidx Hne).
    destruct e as [index|].
    + destruct Hen as (Hfresh & q & Hq & _).
      cbn in Hstep. rewrite (handleAnswerSelect_fresh _ _ _ Hfresh Hq) in Hstep.
      injection Hstep as <- <-. cbn. rewrite Hcomplete, Hfresh in *.
      repeat split; auto; destruct (bool_decide _); lia.
    + cbn in Hstep. injection Hstep as Hstep. unfold Display.handleNext in Hstep.
      rewrite Hen in Hscore. rewrite Hqs in *.
      destruct (Z.ltb_spec (Z.of_nat (Display.currentQuestionIndex s))
                           (Z.of_nat (length qs) - 1)) as [Hlt|Hge].
      * injection Hstep as <- <-. cbn. rewrite Hcomplete.
        repeat split; auto; lia.
      * injection Hstep as <- <-. cbn. rewrite Hen.
        repeat split; auto; lia.
  - destruct Hen as (_ & _ & Hfresh & q & Hq & _).
    rewrite (handleAnswerSelect_fresh _ _ _ Hfresh Hq) in Hthrow. discriminate.
Qed.

(** A run over the questions that are left. *)
Lemma play_rest rest : forall pre s clicks,
  Display.questions s = pre ++ rest ->
  Display.currentQuestionIndex s = length pre ->
  Display.isAnswered s = false ->
  rest <> [] -> length clicks = length rest ->
  exists s',
    Display.play s clicks
    = (s', [ Display.InsertAttempt (Display.score s + Display.hits rest clicks)
               (length (pre ++ rest));
             Display.ToastSuccess
               (js "Quiz completed! Score: "
                ++ js (pretty (Display.score s + Display.hits rest clicks))
                ++ js "/" ++ js (pretty (length (pre ++ rest)))) ])
    /\ Display.isComplete s' = true
    /\ Display.score s' = Display.score s + Display.hits rest clicks.
Proof.
  induction rest as [|q rest IH]; intros pre s clicks Hqs Hidx Hfresh Hne Hlen;
    [congruence|].
  destruct clicks as [|index clicks]; [discriminate|].
  injection Hlen as Hlen.
  assert (Display.questions s !! Display.currentQuestionIndex s = Some q) as Hq.
  { rewrite Hqs, Hidx. rewrite lookup_app_r by lia.
    rewrite Nat.sub_diag. reflexivity. }
  cbn [Display.play Display.hits].
  rewrite (handleAnswerSelect_fresh _ _ _ Hfresh Hq).
  unfold Display.handleNext. cbn [Display.currentQuestionIndex Display.questions].
  rewrite Hqs, Hidx.
  destruct rest as [|q' rest].
  - destruct clicks; [|discriminate].
    destruct (Z.ltb_spec (Z.of_nat (length pre))
                         (Z.of_nat (length (pre ++ [q])) - 1)) as [Hlt|_].
    { rewrite length_app in Hlt. cbn in Hlt. lia. }
    cbn. rewrite Nat.add_0_r. eexists. split; [reflexivity|]. split; reflexivity.
  - destruct (Z.ltb_spec (Z.of_nat (length pre))
                         (Z.of_nat (length (pre ++ q :: q' :: rest)) - 1))
      as [_|Hge].
    2:{ rewrite length_app in Hge. cbn in Hge. lia. }
    match goal with
    | |- context [Display.play ?s2 clicks] =>
        destruct (IH (pre ++ [q]) s2 clicks) as (s' & Hplay & Hc & Hs)
    end.
    + cbn. rewrite <- app_assoc. reflexivity.
    + cbn. rewrite length_app. cbn. lia.
    + reflexivity.
    + discriminate.
    + exact Hlen.
    + rewrite Hplay. cbn [Display.score] in *.
      rewrite <- app_assoc in Hplay |- *. cbn [app] in *.
      rewrite Nat.add_assoc in *.
      exists s'. split; [reflexivity|]. split; [exact Hc | exact Hs].
Qed.

End DisplayFacts.

(** X22.  In every state the user can reach, the current question exists
    and the score is at most the number of questions answered so far,
    hence at most the number of questions; an attempt is recorded only on
    completion, once, with that score and the number of questions. *)
Theorem display_score_bounded (qs : list Display.Question) (s : Display.state)
    (effects : list Display.effect) :
  Display.reachable qs s effects ->
  Display.questions s = qs
  /\ (qs <> [] -> exists q, qs !! Display.currentQuestionIndex s = Some q)
  /\ Display.score s <= length qs
  /\ (Display.isComplete s = false -> effects = [])
  /\ (Display.isComplete s = true ->
      exists message,
        effects = [ Display.InsertAttempt (Display.score s) (length qs);
                    Display.ToastSuccess message ]).
Proof.
  intros Hreach.
  destruct (reachable_invariant _ _ _ Hreach)
    as (Hqs & Hidx & _ & Hscore & Heff).
  split; [exact Hqs|]. split; [|split; [exact Hscore|split]].
  - intros Hne. apply lookup_lt_is_Some_2. auto.
  - intros Hc. rewrite Hc in Heff. exact Heff.
  - intros Hc. rewrite Hc in Heff. subst effects. cbn. rewrite Hqs. eauto.
Qed.

Lemma display_score_bounded_witness :
  let s :=
    {| Display.questions := Cases.two_questions;
       Display.currentQuestionIndex := 0;
       Display.selectedAnswer := Some (Some (js "B"));
       Display.isAnswered := true;
       Display.score := 1;
       Display.isComplete := false |} in
  Display.questions s = Cases.two_questions
  /\ (Cases.two_questions <> [] ->
      exists q, Cases.two_questions !! Display.currentQuestionIndex s = Some q)
  /\ Display.score s <= length Cases.two_questions
  /\ (Display.isComplete s = false -> @nil Display.effect ++ [] = [])
  /\ (Display.isComplete s = true ->
      exists message,
        [] ++ [] = [ Display.InsertAttempt (Display.score s)
                       (length Cases.two_questions);
                     Display.ToastSuccess message ]).
Proof.
  apply (display_score_bounded Cases.two_questions
           {| Display.questions := Cases.two_questions;
              Display.currentQuestionIndex := 0;
              Display.selectedAnswer := Some (Some (js "B"));
              Display.isAnswered := true;
              Display.score := 1;
              Display.isComplete := false |} ([] ++ [])).
  apply (Display.reach_step Cases.two_questions
           (Display.loaded Cases.two_questions) [] (Display.Select 1)).
  - apply Display.reach_loaded.
  - split; [discriminate|]. split; [reflexivity|]. split; [reflexivity|].
    eexists. split; [reflexivity|]. cbn. lia.
  - vm_compute. reflexivity.
Defined.

(** X23.  Answering every question in turn (an option, then Next)
    completes the quiz with a score equal to the number of clicks that hit
    the stored answer, and records one attempt with that score and the
    number of questions. *)
Theorem full_run_score (qs : list Display.Question) (clicks : list nat) :
  qs <> [] -> length clicks = length qs ->
  exists s',
    Display.play (Display.loaded qs) clicks
    = (s', [ Display.InsertAttempt (Display.hits qs clicks) (length qs);
             Display.ToastSuccess
               (js "Quiz completed! Score: "
                ++ js (pretty (Display.hits qs clicks))
                ++ js "/" ++ js (pretty (length qs))) ])
    /\ Display.isComplete s' = true
    /\ Display.score s' = Display.hits qs clicks.
Proof.
  intros Hne Hlen.
  exact (play_rest qs [] (Display.loaded qs) clicks eq_refl eq_refl eq_refl
           Hne Hlen).
Qed.

Lemma full_run_score_witness :
  exists s',
    Display.play (Display.loaded Cases.two_questions) [1; 0]
    = (s', [ Display.InsertAttempt (Display.hits Cases.two_questions [1; 0])
               (length Cases.two_questions);
             Display.ToastSuccess
               (js "Quiz completed! Score: "
                ++ js (pretty (Display.hits Cases.two_questions [1; 0]))
                ++ js "/" ++ js (pretty (length Cases.two_questions))) ])
    /\ Display.isComplete s' = true
    /\ Display.score s' = Display.hits Cases.two_questions [1; 0].
Proof.
  apply (full_run_score Cases.two_questions [1; 0]).
  - discriminate.
  - reflexivity.
Defined.

(** X24.  A question whose stored answer is not one of the labels "A" to
    "D" can never be scored: whichever option is clicked, the score stays
    as it was. *)
Theorem unlabeled_answer_never_scores (s : Display.state) (q : Display.Question)
    (index : nat) :
  Display.questions s !! Display.currentQuestionIndex s = Some q ->
  Display.correct_answer q ∉ option_labels ->
  exists s',
    Display.handleAnswerSelect s (Display.getOptionLabel index) = Display.Done s'
    /\ Display.score s' = Display.score s.
Proof.
  intros Hq Hlabel. unfold Display.handleAnswerSelect.
  destruct (Display.isAnswered s); [eauto|]. rewrite Hq.
  destruct (bool_decide_reflect
              (Display.getOptionLabel index = Some (Display.correct_answer q)))
    as [Heq|_].
  - exfalso. exact (Hlabel (getOptionLabel_label _ _ Heq)).
  - eexists. split; reflexivity.
Qed.

Lemma unlabeled_answer_never_scores_witness :
  exists s',
    Display.handleAnswerSelect
      (Display.loaded [ {| Display.options := [js "w"; js "x"; js "y"; js "z"];
                           Display.correct_answer := js "E" |} ])
      (Display.getOptionLabel 3)
    = Display.Done s'
    /\ Display.score s'
       = Display.score
           (Display.loaded [ {| Display.options := [js "w"; js "x"; js "y"; js "z"];
                                Display.correct_answer := js "E" |} ]).
Proof.
  apply (unlabeled_answer_never_scores
           (Display.loaded [ {| Display.options := [js "w"; js "x"; js "y"; js "z"];
                                Display.correct_answer := js "E" |} ])
           {| Display.options := [js "w"; js "x"; js "y"; js "z"];
              Display.correct_answer := js "E" |} 3).
  - reflexivity.
  - intros H. unfold option_labels in H.
    repeat (apply elem_of_cons in H as [H|H]; [vm_compute in H; discriminate|]).
    apply elem_of_nil in H. exact H.
Defined.

(** X25.  A successful answer of the completion service that holds no
    choice (its [choices] is missing or an empty array) is answered 500
    with the engine's message for the failed property read; it is not
    reported as invalid JSON. *)
Theorem completion_without_choice (P : Platform) (W : World) (req : Request)
    (url : json) (doc : document) (t : list fetch_request)
    (ttl txt key : jsstring) (r : http_response) (m : gmap jsstring json) :
  method req <> js "OPTIONS" ->
  request_url P req = (Normal url, []) ->
  fetch_document P W url = (Normal doc, t) ->
  extract P doc = (Normal (ttl, txt), []) ->
  env_get W (js "LOVABLE_API_KEY") = Some key -> key <> [] ->
  fetch_answer W (aiRequest key ttl txt) = Resolved r ->
  ok r = true ->
  JSON_parse (r_text r) = Some (JObj m) ->
  m !! js "choices" = None \/ m !! js "choices" = Some (JArr []) ->
  handler P W req
  = ({| status := 500; headers := jsonHeaders;
        payload :=
          Some (JObj {[ js "error" :=
            JStr (fault_message P
          (CannotRead None
             match m !! js "choices" with
             | None => js "0"
             | Some _ => js "message"
             end)) ]}) |},
     t ++ [aiRequest key ttl txt]).
Proof.
  intros Hmethod Hurl Hdoc Hex Hkey Hne Hr Hok Hjson Hchoices.
  rewrite (handler_pipeline _ _ _ Hmethod).
  rewrite (pipeline_extracted _ _ _ _ _ _ _ _ Hurl Hdoc Hex). cbv zeta.
  rewrite (complete_configured _ _ _ _ _ _ Hkey Hne Hr).
  assert (read_completion P r
          = (Thrown (ErrorObj (fault_message P
               (CannotRead None
                  match m !! js "choices" with
                  | None => js "0"
                  | Some _ => js "message"
                  end))), [])) as ->.
  { unfold read_completion. rewrite Hok, JSON_parse_M_cases, Hjson. cbn [negb].
    rewrite (bind_pure (Normal (JObj m), []) _ (JObj m) eq_refl).
    rewrite (bind_pure (get_named P (Some (JObj m)) (js "choices")) _
               (m !! js "choices") eq_refl).
    destruct Hchoices as [-> | ->]; [reflexivity|].
    rewrite (bind_pure (get_index P (Some (JArr [])) 0) _ None eq_refl).
    reflexivity. }
  reflexivity.
Qed.

Lemma completion_without_choice_witness :
  handler (Sample.platform [Sample.test_page])
          (Sample.world (fst Sample.test_page) 200 (jsq "{'choices': []}")
             (Some (js "secret")))
          Sample.test_request
  = ({| status := 500; headers := jsonHeaders;
        payload :=
          Some (JObj {[ js "error" :=
            JStr (js "Cannot read properties of undefined") ]}) |},
     [ wikiRequest Sample.test_url ]
     ++ [ aiRequest (js "secret") (js "Test") Sample.test_text ]).
Proof.
  apply (completion_without_choice
           (Sample.platform [Sample.test_page])
           (Sample.world (fst Sample.test_page) 200 (jsq "{'choices': []}")
              (Some (js "secret")))
           Sample.test_request (JStr Sample.test_url) (snd Sample.test_page)
           [wikiRequest Sample.test_url] (js "Test") Sample.test_text
           (js "secret") {| r_status := 200; r_text := jsq "{'choices': []}" |}
           {[ js "choices" := JArr [] ]}).
  - vm_compute. discriminate.
  - vm_compute. reflexivity.
  - vm_compute. reflexivity.
  - vm_compute. reflexivity.
  - vm_compute. reflexivity.
  - vm_compute. discriminate.
  - vm_compute. reflexivity.
  - vm_compute. reflexivity.
  - vm_compute. reflexivity.
  - right. vm_compute. reflexivity.
Defined.

(** The text of the error toast: the message whole, or the default when
    there is none. *)
Example error_text_cases :
  Generator.error_text (ErrorObj (js "violates check constraint"))
  = js "violates check constraint"
  /\ Generator.error_text (ErrorObj (js "x")) = js "x"
  /\ Generator.error_text (ErrorObj [])
     = js "Failed to generate quiz. Please try again."
  /\ Generator.error_text NonError
     = js "Failed to generate quiz. Please try again.".
Proof. repeat split; reflexivity. Qed.
